(** * GPdoemd: analytic parameter-uncertainty marginalisation

    A shallow embedding of
      - [GPdoemd/marginal/analytic.py]            (class [Analytic]),
      - [GPdoemd/case_studies/analytic/bff1983.py] (candidate model [M5]),
      - [GPdoemd/models/vanilla_gp_model.py]      (the kernel properties of
        [VanillaGPModel]),
    together with the properties stated about them.

    Numbers are real numbers: every [float] of the Python code is read as an
    element of [R], so the development speaks about the formulas of the code in
    exact arithmetic and says nothing about rounding, infinities or NaN.
    Python exceptions are values of [exn]; a computation that may raise has a
    type [result A]. *)

From Stdlib Require Import String.
From Stdlib Require Import Reals Lra List Arith Lia Bool.
Import ListNotations.

Open Scope R_scope.

(** ** Exceptions and the error monad *)

Inductive exn : Type :=
| AssertionError
| AttributeError
| IndexError
| LinAlgError
| TypeError
| ValueError.

Inductive result (A : Type) : Type :=
| Ok (a : A)
| Raise (e : exn).

Arguments Ok {A} a.
Arguments Raise {A} e.

Definition bind {A B : Type} (c : result A) (k : A -> result B) : result B :=
  match c with
  | Ok a => k a
  | Raise e => Raise e
  end.

Notation "x <- c ;; k" := (bind c (fun x => k))
  (at level 61, c at next level, right associativity).

(** [for x in xs: acc = body(acc, x)], leaving the loop at the first exception. *)
Fixpoint for_each {A B : Type} (xs : list B) (body : A -> B -> result A) (acc : A)
  : result A :=
  match xs with
  | [] => Ok acc
  | x :: xs' => acc' <- body acc x ;; for_each xs' body acc'
  end.

(** A list comprehension whose element expression may raise. *)
Fixpoint comprehension {A B : Type} (f : A -> result B) (xs : list A)
  : result (list B) :=
  match xs with
  | [] => Ok []
  | x :: xs' => y <- f x ;; ys <- comprehension f xs' ;; Ok (y :: ys)
  end.

(** [range(a, b)] *)
Definition range (a b : nat) : list nat := seq a (b - a).

(** ** The part of numpy the code uses *)

Module Numpy.

(** Finite sum [f 0 + ... + f (n-1)]. *)
Fixpoint big_sum (n : nat) (f : nat -> R) : R :=
  match n with
  | O => 0
  | S k => big_sum k f + f k
  end.

(** A two-dimensional array: its shape and its rows. *)
Record matrix : Type := mkMatrix {
  nrow : nat;
  ncol : nat;
  rows : list (list R)
}.

(** A three-dimensional array, as the list of its slices along axis 0. *)
Record tensor : Type := mkTensor {
  dim0 : nat;
  dim1 : nat;
  dim2 : nat;
  slices : list matrix
}.

Definition shape (A : matrix) : nat * nat := (nrow A, ncol A).

Definition shape_eqb (s t : nat * nat) : bool :=
  (fst s =? fst t)%nat && (snd s =? snd t)%nat.

Definition well_formed (A : matrix) : Prop :=
  length (rows A) = nrow A /\ Forall (fun r => length r = ncol A) (rows A).

(** The [r] x [c] array whose entry [i, j] is [f i j]. *)
Definition tabulate (r c : nat) (f : nat -> nat -> R) : matrix :=
  mkMatrix r c (map (fun i => map (fun j => f i j) (seq 0 c)) (seq 0 r)).

(** [A[i, j]] for indices known to be in range. *)
Definition get (A : matrix) (i j : nat) : R :=
  nth j (nth i (rows A) []) 0.

(** [A[i, j]] with the bounds check of numpy. *)
Definition getitem (A : matrix) (i j : nat) : result R :=
  if (i <? nrow A)%nat && (j <? ncol A)%nat then Ok (get A i j)
  else Raise IndexError.

(** [np.zeros((r, c))] *)
Definition zeros (r c : nat) : matrix := tabulate r c (fun _ _ => 0).

(** [A.T] *)
Definition transpose (A : matrix) : matrix :=
  tabulate (ncol A) (nrow A) (fun i j => get A j i).

(** [np.matmul(A, B)] on two-dimensional arrays: the inner dimensions must
    agree, there is no broadcasting of core dimensions. *)
Definition matmul (A B : matrix) : result matrix :=
  if (ncol A =? nrow B)%nat then
    Ok (tabulate (nrow A) (ncol B)
          (fun i j => big_sum (ncol A) (fun k => get A i k * get B k j)))
  else Raise ValueError.

(** [w * A] for a scalar [w]. *)
Definition scale (w : R) (A : matrix) : matrix :=
  tabulate (nrow A) (ncol A) (fun i j => w * get A i j).

(** [A += B]: [B] is broadcast to the shape of [A] (an axis of length one is
    stretched); any other shape mismatch is a [ValueError]. *)
Definition broadcastable (have want : nat) : bool :=
  (have =? want)%nat || (have =? 1)%nat.

Definition bidx (have i : nat) : nat := if (have =? 1)%nat then O else i.

Definition iadd (A B : matrix) : result matrix :=
  if broadcastable (nrow B) (nrow A) && broadcastable (ncol B) (ncol A) then
    Ok (tabulate (nrow A) (ncol A)
          (fun i j => get A i j + get B (bidx (nrow B) i) (bidx (ncol B) j)))
  else Raise ValueError.

(** [v] stored into a slot of length [n] of a preallocated array
    ([M[n] = v]). *)
Definition store_row (n : nat) (v : list R) : result (list R) :=
  if broadcastable (length v) n then
    Ok (map (fun j => nth (bidx (length v) j) v 0) (seq 0 n))
  else Raise ValueError.

(** [J] stored into an [r] x [c] slot of a preallocated array
    ([dmu[n] = J]). *)
Definition store_matrix (r c : nat) (J : matrix) : result matrix :=
  if broadcastable (nrow J) r && broadcastable (ncol J) c then
    Ok (tabulate r c (fun i j => get J (bidx (nrow J) i) (bidx (ncol J) j)))
  else Raise ValueError.

(** [A[i, j] = v] *)
Definition setitem (A : matrix) (i j : nat) (v : R) : matrix :=
  tabulate (nrow A) (ncol A)
    (fun a b => if (a =? i)%nat && (b =? j)%nat then v else get A a b).

(** [np.diag(v)] for a one-dimensional [v]. *)
Definition diag (v : list R) : matrix :=
  tabulate (length v) (length v)
    (fun i j => if (i =? j)%nat then nth i v 0 else 0).

(** [np.array(Js)] for a list of two-dimensional arrays: a three-dimensional
    array when the list is not empty and all shapes agree.  For the empty list
    numpy returns a one-dimensional array; a ragged list gives no
    three-dimensional array either (an array of objects, or a [ValueError] in
    recent versions of numpy).  Both are [None] here. *)
Definition stack (Js : list matrix) : option tensor :=
  match Js with
  | [] => None
  | J0 :: _ =>
      if forallb (fun J => shape_eqb (shape J) (shape J0)) Js
      then Some (mkTensor (length Js) (nrow J0) (ncol J0) Js)
      else None
  end.

(** [T[:, e]]: the [dim0] x [dim2] array of the rows [e] of all slices. *)
Definition take_axis1 (T : tensor) (e : nat) : result matrix :=
  if (e <? dim1 T)%nat then
    Ok (tabulate (dim0 T) (dim2 T)
          (fun n d => get (nth n (slices T) (zeros 0 0)) e d))
  else Raise IndexError.

(** *** [np.linalg.inv]

    numpy is not part of the repository.  Its inverse is modelled in exact
    arithmetic by the adjugate formula: the argument must be square
    ([LinAlgError] otherwise), a singular matrix raises [LinAlgError], and the
    empty 0 x 0 matrix is its own inverse. *)

Definition skip (k a : nat) : nat := if (a <? k)%nat then a else S a.

(** Entries of the matrix with row [i] and column [j] removed. *)
Definition minor (f : nat -> nat -> R) (i j : nat) : nat -> nat -> R :=
  fun a b => f (skip i a) (skip j b).

(** Determinant of the leading [n] x [n] block of [f], expanded along the
    first row. *)
Fixpoint det (n : nat) (f : nat -> nat -> R) : R :=
  match n with
  | O => 1
  | S m => big_sum (S m) (fun j => (-1) ^ j * f O j * det m (minor f O j))
  end.

Definition inv (A : matrix) : result matrix :=
  if (nrow A =? ncol A)%nat then
    let n := nrow A in
    let d := det n (get A) in
    if Req_dec_T d 0 then Raise LinAlgError
    else Ok (tabulate n n
               (fun i j => (-1) ^ (i + j) * det (n - 1) (minor (get A) j i) / d))
  else Raise LinAlgError.

End Numpy.

(** ** [GPdoemd/marginal/analytic.py]: class [Analytic] *)

Module AnalyticMarginal.
Import Numpy.

(** The Python values that reach the [Sigma] setter or come back from the
    derivative hooks. *)
Inductive pyexc : Type :=
| NotImplementedError.

Inductive pyobj : Type :=
| PyNone
| PyFloat (r : R)
| PyList (l : list R)
| PyArray1 (v : list R)
| PyArray2 (A : matrix)
| PyArray3 (T : tensor)
| PyExceptionClass (c : pyexc).

Definition isinstance_ndarray (value : pyobj) : bool :=
  match value with
  | PyArray1 _ | PyArray2 _ | PyArray3 _ => true
  | _ => false
  end.

(** The model handed to the constructor: [model.num_outputs] and
    [model.call(x, p, grad=True)], which returns the value and the Jacobian. *)
Record Model : Type := mkModel {
  model_num_outputs : nat;
  model_call : list R -> list R -> result (list R * matrix)
}.

(** An instance of [Analytic].  [_Sigma] is [None] while the attribute does not
    exist. *)
Record Analytic : Type := mkAnalytic {
  num_outputs : nat;
  call : list R -> list R -> result (list R * matrix);
  param_mean : list R;
  _Sigma : option matrix
}.

Definition __init__ (model : Model) (param_mean : list R) : Analytic :=
  mkAnalytic (model_num_outputs model) (model_call model) param_mean None.

(** The [Sigma] property: [None] when [_Sigma] is absent. *)
Definition Sigma (self : Analytic) : option matrix := _Sigma self.

Definition with_Sigma (self : Analytic) (value : matrix) : Analytic :=
  mkAnalytic (num_outputs self) (call self) (param_mean self) (Some value).

(** The [Sigma] setter: two assertions, then the assignment.  The result is
    the outcome together with the object after the call. *)
Definition Sigma_setter (self : Analytic) (value : pyobj)
  : result unit * Analytic :=
  if isinstance_ndarray value then
    let dim_p := length (param_mean self) in
    match value with
    | PyArray2 A =>
        if shape_eqb (shape A) (dim_p, dim_p)
        then (Ok tt, with_Sigma self A)
        else (Raise AssertionError, self)
    | _ => (Raise AssertionError, self)
    end
  else (Raise AssertionError, self).

Definition grad (self : Analytic) (x : list R) : result matrix :=
  r <- call self x (param_mean self) ;; Ok (snd r).

Definition d_mu_d_p (self : Analytic) (X : list (list R)) : result tensor :=
  Js <- comprehension (grad self) X ;;
  match stack Js with
  | Some dmu => Ok dmu
  | None => Raise AssertionError
  end.

(** The three hooks [return NotImplementedError]: the call returns the
    exception class as an ordinary value. *)
Definition d2_mu_d_p2 (self : Analytic) (gp X : pyobj) : result pyobj :=
  Ok (PyExceptionClass NotImplementedError).

Definition d_s2_d_p (self : Analytic) (gp X : pyobj) : result pyobj :=
  Ok (PyExceptionClass NotImplementedError).

Definition d2_s2_d_p2 (self : Analytic) (gp X : pyobj) : result pyobj :=
  Ok (PyExceptionClass NotImplementedError).

(** The measurement noise: a Python number, a one-dimensional array or a
    two-dimensional array. *)
Inductive noise_model : Type :=
| NoiseScalar (v : R)
| NoiseVector (v : list R)
| NoiseMatrix (m : matrix).

Definition ndim_is_1 (n : noise_model) : bool :=
  match n with
  | NoiseVector _ => true
  | _ => false
  end.

(** Body of the inner loop [for e2 in range(e1+1, E)]. *)
Definition cross_terms (imeasvar : matrix) (dmu : tensor) (dmu1 : matrix)
  (e1 : nat) (iA : matrix) (e2 : nat) : result matrix :=
  w12 <- getitem imeasvar e1 e2 ;;
  if Req_dec_T w12 0 then Ok iA
  else
    dmu2 <- take_axis1 dmu e2 ;;
    P12 <- matmul (transpose dmu1) dmu2 ;;
    iA <- iadd iA (scale w12 P12) ;;
    w21 <- getitem imeasvar e2 e1 ;;
    P21 <- matmul (transpose dmu2) dmu1 ;;
    iadd iA (scale w21 P21).

(** Body of the outer loop [for e1 in range(E)]. *)
Definition output_terms (one_dim : bool) (imeasvar : matrix) (dmu : tensor)
  (E : nat) (iA : matrix) (e1 : nat) : result matrix :=
  dmu1 <- take_axis1 dmu e1 ;;
  w <- getitem imeasvar e1 e1 ;;
  P <- matmul (transpose dmu1) dmu1 ;;
  iA <- iadd iA (scale w P) ;;
  if one_dim then Ok iA
  else for_each (range (e1 + 1) E) (cross_terms imeasvar dmu dmu1 e1) iA.

(** The matrix handed to the final [np.linalg.inv]. *)
Definition information_matrix (self : Analytic) (Xdata : list (list R))
  (meas_noise_var : noise_model) : result matrix :=
  let E := num_outputs self in
  let D := length (param_mean self) in
  let meas_noise_var :=
    match meas_noise_var with
    | NoiseScalar v => NoiseVector (repeat v E)
    | _ => meas_noise_var
    end in
  imeasvar <- match meas_noise_var with
              | NoiseVector v => Ok (diag (map (fun s => 1 / s) v))
              | NoiseMatrix m => inv m
              | NoiseScalar _ => Raise AttributeError
              end ;;
  dmu <- d_mu_d_p self Xdata ;;
  for_each (range 0 E)
    (output_terms (ndim_is_1 meas_noise_var) imeasvar dmu E) (zeros D D).

Definition compute_param_covar (self : Analytic) (Xdata : list (list R))
  (meas_noise_var : noise_model) : result unit * Analytic :=
  match iA <- information_matrix self Xdata meas_noise_var ;; inv iA with
  | Ok iAinv => Sigma_setter self (PyArray2 iAinv)
  | Raise e => (Raise e, self)
  end.

(** [np.matmul(self.Sigma, B)]: numpy refuses the operand [None] (with a
    [TypeError] or a [ValueError], depending on its version). *)
Definition matmul_Sigma (Sig : option matrix) (B : matrix) : result matrix :=
  match Sig with
  | None => Raise TypeError
  | Some A => matmul A B
  end.

Definition variance_floor : R := 1e-15.

(** [S[:, e, e] = np.maximum(1e-15, S[:, e, e])] *)
Definition clamp (Ss : list matrix) (e : nat) : list matrix :=
  map (fun Sn => setitem Sn e e (Rmax variance_floor (get Sn e e))) Ss.

(** [__call__]: the first loop fills [M] and [dmu] (two preallocated arrays
    of shapes (N, E) and (N, E, D)), the second computes the slices of [S];
    both matrix products succeed only when [Sigma] is D x D, so that each
    product has the shape E x E of its slot. *)
Definition __call__ (self : Analytic) (xnew : list (list R))
  : result (matrix * tensor) :=
  let N := length xnew in
  let E := num_outputs self in
  let D := length (param_mean self) in
  filled <- comprehension
              (fun x =>
                 r <- call self x (param_mean self) ;;
                 Mn <- store_row E (fst r) ;;
                 dmun <- store_matrix E D (snd r) ;;
                 Ok (Mn, dmun)) xnew ;;
  let M := mkMatrix N E (map fst filled) in
  let dmu := map snd filled in
  S0 <- comprehension
          (fun dmun =>
             inner <- matmul_Sigma (Sigma self) (transpose dmun) ;;
             matmul dmun inner) dmu ;;
  let S1 := fold_left clamp (range 0 E) S0 in
  Ok (M, mkTensor N E E S1).

End AnalyticMarginal.

(** ** [GPdoemd/case_studies/analytic/bff1983.py]: candidate model [M5] *)

Module BFF1983.
Import Numpy.

(** [M5.__call__(x, p, grad)]: the value [np.array([y])] and, with
    [grad=True], the 1 x 5 array of the derivatives.  Unpacking a sequence of
    the wrong length is a [ValueError]. *)
Definition M5 (x p : list R) (grad : bool) : result (list R * option matrix) :=
  match x with
  | [x1; x2; x3] =>
      match p with
      | [K1; K2; K3; K4; Keq] =>
          let nom := x1 * x2 ^ 2 - x3 / Keq in
          let dnm := K1 + K2 * x2 + K3 * x1 * x2 + K4 * x3 in
          let y := nom / dnm ^ 2 in
          if negb grad then Ok ([y], None)
          else
            let dK1 := - 2 * y / dnm in
            let dK2 := dK1 * x2 in
            let dK3 := dK1 * x1 * x2 in
            let dK4 := dK1 * x3 in
            let dKeq := x3 / (Keq * dnm) ^ 2 in
            Ok ([y], Some (mkMatrix 1 5 [[dK1; dK2; dK3; dK4; dKeq]]))
      | _ => Raise ValueError
      end
  | _ => Raise ValueError
  end.

(** [DataGen.p] *)
Definition DataGen_p : list R := [1704; 4.25; 0.241; 444.6; 1.7e-5].

(** The value [y] of a call, for statements about the function
    [p |-> y(x, p)]. *)
Definition value_of (r : result (list R * option matrix)) : R :=
  match r with
  | Ok (y, _) => nth 0 y 0
  | Raise _ => 0
  end.

(** Entry [i] of the Jacobian row of a [grad=True] call. *)
Definition jacobian_of (r : result (list R * option matrix)) (i : nat) : R :=
  match r with
  | Ok (_, Some J) => get J 0 i
  | _ => 0
  end.

(** [p] with its entry [i] replaced by [t]. *)
Fixpoint replace (p : list R) (i : nat) (t : R) : list R :=
  match p, i with
  | [], _ => []
  | _ :: p', O => t :: p'
  | a :: p', S i' => a :: replace p' i' t
  end.


End BFF1983.

(** ** [GPdoemd/models/vanilla_gp_model.py]: the kernel properties *)

Module VanillaGP.

(** A class object: its name and the names of the classes in its method
    resolution order. *)
Record pyclass : Type := mkClass {
  cls_name : string;
  cls_mro : list string
}.

(** [issubclass(value, Kern)] *)
Definition issubclass_Kern (value : pyclass) : bool :=
  existsb (String.eqb "Kern") (cls_mro value).

(** The two attributes behind the kernel properties; [None] while an
    attribute does not exist. *)
Record VanillaGPModel : Type := mkVanillaGPModel {
  _kern_x : option pyclass;
  _kern_p : option pyclass
}.

(** Getter of [kern_x]. *)
Definition kern_x (self : VanillaGPModel) : result (option pyclass) :=
  match _kern_x self with
  | None => Ok None
  | Some k => Ok (Some k)
  end.

(** Setter of [kern_x]; [value] is [None] or a class. *)
Definition kern_x_setter (self : VanillaGPModel) (value : option pyclass)
  : result unit * VanillaGPModel :=
  match value with
  | None => (Ok tt, self)
  | Some k =>
      if issubclass_Kern k
      then (Ok tt, mkVanillaGPModel (Some k) (_kern_p self))
      else (Raise AssertionError, self)
  end.

(** Getter of [kern_p]: tests for [_kern_p], reads [_kern_x]. *)
Definition kern_p (self : VanillaGPModel) : result (option pyclass) :=
  match _kern_p self with
  | None => Ok None
  | Some _ =>
      match _kern_x self with
      | Some k => Ok (Some k)
      | None => Raise AttributeError
      end
  end.

(** Setter of [kern_p]. *)
Definition kern_p_setter (self : VanillaGPModel) (value : option pyclass)
  : result unit * VanillaGPModel :=
  match value with
  | None => (Ok tt, self)
  | Some k =>
      if issubclass_Kern k
      then (Ok tt, mkVanillaGPModel (_kern_x self) (Some k))
      else (Raise AssertionError, self)
  end.

Definition set_kernels (self : VanillaGPModel) (kern_x kern_p : option pyclass)
  : result unit * VanillaGPModel :=
  match kern_x_setter self kern_x with
  | (Ok _, self') => kern_p_setter self' kern_p
  | (Raise e, self') => (Raise e, self')
  end.

End VanillaGP.

(** ** The formulas of the specification

    Definitions written after the specification's description of the
    estimator and of the propagation, to be compared with what the code
    computes. *)

Module MarginalSpec.
Import Numpy AnalyticMarginal.

(** The Jacobian of the model at [x] and at the parameter mean. *)
Definition jacobian (self : Analytic) (x : list R) : matrix :=
  match call self x (param_mean self) with
  | Ok r => snd r
  | Raise _ => zeros 0 0
  end.

(** The value of the model at [x] and at the parameter mean. *)
Definition mean_at (self : Analytic) (x : list R) : list R :=
  match call self x (param_mean self) with
  | Ok r => fst r
  | Raise _ => []
  end.

(** The model function contract at [x]: the call returns an output of length
    E and an E x D Jacobian. *)
Definition respects_contract (self : Analytic) (x : list R) : Prop :=
  exists y J,
    call self x (param_mean self) = Ok (y, J) /\
    length y = num_outputs self /\
    shape J = (num_outputs self, length (param_mean self)).

(** [dmu[e]]: the N x D stack of the Jacobian rows of output [e]. *)
Definition dmu_of (self : Analytic) (X : list (list R)) (e : nat) : matrix :=
  tabulate (length X) (length (param_mean self))
    (fun n d => get (jacobian self (nth n X [])) e d).

(** Entry [i, j] of [A^T * B]. *)
Definition gram (A B : matrix) (i j : nat) : R :=
  big_sum (nrow A) (fun n => get A n i * get B n j).

(** Information matrix for a vector of per-output variances:
    the sum over the outputs [e] of [(1 / var_e) * dmu[e]^T * dmu[e]]. *)
Definition I_inv_vector (self : Analytic) (X : list (list R)) (var : list R)
  : matrix :=
  let D := length (param_mean self) in
  tabulate D D
    (fun i j =>
       big_sum (num_outputs self)
         (fun e => 1 / nth e var 0 * gram (dmu_of self X e) (dmu_of self X e) i j)).

(** The two cross terms of the pair [e1 < e2], present when the weight
    [w[e1, e2]] is not zero. *)
Definition cross_pair (self : Analytic) (X : list (list R)) (w : matrix)
  (e1 e2 i j : nat) : R :=
  if Req_dec_T (get w e1 e2) 0 then 0
  else get w e1 e2 * gram (dmu_of self X e1) (dmu_of self X e2) i j
       + get w e2 e1 * gram (dmu_of self X e2) (dmu_of self X e1) i j.

(** Information matrix for a full noise covariance with inverse [w]: the
    diagonal terms and, for every pair [e1 < e2], the cross terms. *)
Definition I_inv_matrix (self : Analytic) (X : list (list R)) (w : matrix)
  : matrix :=
  let D := length (param_mean self) in
  let E := num_outputs self in
  tabulate D D
    (fun i j =>
       big_sum E
         (fun e1 =>
            get w e1 e1 * gram (dmu_of self X e1) (dmu_of self X e1) i j
            + big_sum (E - (e1 + 1))
                (fun t => cross_pair self X w e1 (e1 + 1 + t) i j))).


(** Entry [a, b] of the propagated covariance [J * Sigma * J^T]. *)
Definition propagate (Sig J : matrix) (a b : nat) : R :=
  big_sum (ncol J)
    (fun k => get J a k * big_sum (ncol J) (fun l => get Sig k l * get J b l)).

(** The propagated covariance with its diagonal floored. *)
Definition floored (E : nat) (Sig J : matrix) : matrix :=
  tabulate E E
    (fun a b =>
       if (a =? b)%nat then Rmax variance_floor (propagate Sig J a a)
       else propagate Sig J a b).


(** The shapes of the noise model that the estimator is documented for. *)
Definition noise_fits (E : nat) (noise : noise_model) : Prop :=
  match noise with
  | NoiseScalar _ => True
  | NoiseVector v => length v = E
  | NoiseMatrix m => shape m = (E, E)
  end.

(** The information matrix the specification assigns to a noise model; a
    scalar stands for the vector of E equal variances.  [None] when a full
    noise covariance has no inverse. *)
Definition spec_information (self : Analytic) (X : list (list R))
  (noise : noise_model) : option matrix :=
  match noise with
  | NoiseScalar v => Some (I_inv_vector self X (repeat v (num_outputs self)))
  | NoiseVector var => Some (I_inv_vector self X var)
  | NoiseMatrix m =>
      match inv m with
      | Ok w => Some (I_inv_matrix self X w)
      | Raise _ => None
      end
  end.

(** Valid input of the estimator: at least one training point, a model that
    respects its contract there, a noise model of the right shape and an
    invertible information matrix. *)
Definition valid_training (self : Analytic) (X : list (list R))
  (noise : noise_model) : Prop :=
  X <> [] /\
  Forall (respects_contract self) X /\
  noise_fits (num_outputs self) noise /\
  exists iA,
    spec_information self X noise = Some iA /\
    det (length (param_mean self)) (get iA) <> 0.


End MarginalSpec.

(** ** Gradient fidelity of a candidate model *)

Module GradientSpec.
Import Numpy BFF1983.

(** Entry [i] of the Jacobian row returned at [(x, p)] is the partial
    derivative of the value with respect to the parameter [i]. *)
Definition is_partial_derivative (x p : list R) (i : nat) : Prop :=
  derivable_pt_lim
    (fun t => value_of (M5 x (replace p i t) false))
    (nth i p 0)
    (jacobian_of (M5 x p true) i).

(** The forward difference quotient of the value in the parameter [i]. *)
Definition finite_difference (x p : list R) (i : nat) (h : R) : R :=
  (value_of (M5 x (replace p i (nth i p 0 + h)) false)
   - value_of (M5 x p false)) / h.

(** Every forward difference quotient whose step is at most [step] times
    the size of the parameter agrees with the returned entry within the
    relative tolerance [tol]. *)
Definition matches_finite_difference (x p : list R) (i : nat) (step tol : R)
  : Prop :=
  forall h, h <> 0 -> Rabs h <= step * Rabs (nth i p 0) ->
    Rabs (finite_difference x p i h - jacobian_of (M5 x p true) i)
    <= tol * Rabs (jacobian_of (M5 x p true) i).

(** Gradient fidelity at [(x, p)]: each of the five entries is the partial
    derivative and is matched by finite differences. *)
Definition gradient_fidelity (x p : list R) (step tol : R) : Prop :=
  forall i, (i < 5)%nat ->
    is_partial_derivative x p i /\ matches_finite_difference x p i step tol.

End GradientSpec.

(** ** A test instance

    A model with one output and one parameter, [y = p * x], whose Jacobian is
    [[x]]. *)

Module Examples.
Import Numpy AnalyticMarginal.

Definition linear_model : Model :=
  mkModel 1
    (fun x p =>
       match x, p with
       | [x0], [p0] => Ok ([p0 * x0], mkMatrix 1 1 [[x0]])
       | _, _ => Raise ValueError
       end).

(** Two kernel classes of the regression library. *)
Definition RBF : VanillaGP.pyclass :=
  VanillaGP.mkClass "RBF"%string
    ["RBF"; "Stationary"; "Kern"; "object"]%string.

Definition Matern52 : VanillaGP.pyclass :=
  VanillaGP.mkClass "Matern52"%string
    ["Matern52"; "Stationary"; "Kern"; "object"]%string.

End Examples.

(** ** [bff1983.py]: the rival models and their declared domain *)

Module BFF1983Rivals.
Import Numpy BFF1983.


(** [BFF1983Model.x_bounds] and [BFF1983Model.p_bounds]: one pair
    (lower, upper) per component. *)
Definition x_bounds : list (R * R) := [(15, 25); (200, 250); (5, 10)].

Definition p_bounds : list (R * R) :=
  [(1, 10000); (1e-2, 10); (1e-4, 1); (1, 1000); (1e-10, 1)].

(** The type of a [__call__(x, p, grad)] of the case study. *)
Definition candidate : Type :=
  list R -> list R -> bool -> result (list R * option matrix).

Definition M1 : candidate := fun x p grad =>
  match x with
  | [x1; x2; x3] =>
      match p with
      | [K1; K2; K3; K4; Keq] =>
          let nom := x1 * x2 ^ 2 - x3 / Keq in
          let dnm := K1 + K2 * x1 + K3 * x2 + K4 * x3 in
          let y := nom / dnm ^ 2 in
          if negb grad then Ok ([y], None)
          else
            let dK1 := - 2 * y / dnm in
            let dK2 := dK1 * x1 in
            let dK3 := dK1 * x2 in
            let dK4 := dK1 * x3 in
            let dKeq := x3 / (Keq * dnm) ^ 2 in
            Ok ([y], Some (mkMatrix 1 5 [[dK1; dK2; dK3; dK4; dKeq]]))
      | _ => Raise ValueError
      end
  | _ => Raise ValueError
  end.

Definition M2 : candidate := fun x p grad =>
  match x with
  | [x1; x2; x3] =>
      match p with
      | [K1; K2; K3; K4; Keq] =>
          let nom := x1 * x2 ^ 2 - x3 / Keq in
          let dnm := K1 + K2 * x1 + K3 * x2 + K4 * x1 * x2 in
          let y := nom / dnm in
          if negb grad then Ok ([y], None)
          else
            let dK1 := - y / dnm in
            let dK2 := dK1 * x1 in
            let dK3 := dK1 * x2 in
            let dK4 := dK1 * x1 * x2 in
            let dKeq := x3 / (Keq ^ 2 * dnm) in
            Ok ([y], Some (mkMatrix 1 5 [[dK1; dK2; dK3; dK4; dKeq]]))
      | _ => Raise ValueError
      end
  | _ => Raise ValueError
  end.

Definition M3 : candidate := fun x p grad =>
  match x with
  | [x1; x2; x3] =>
      match p with
      | [K1; K2; K3; K4; Keq] =>
          let nom := x1 * x2 ^ 2 - x3 / Keq in
          let dnm := x2 ^ 2 * (K1 + K2 * x3 + K3 * x2) + K4 * x2 * x3 in
          let y := nom / dnm in
          if negb grad then Ok ([y], None)
          else
            let dK1 := - y * x2 ^ 2 / dnm in
            let dK2 := dK1 * x3 in
            let dK3 := dK1 * x2 in
            let dK4 := dK1 * x3 / x2 in
            let dKeq := x3 / (Keq ^ 2 * dnm) in
            Ok ([y], Some (mkMatrix 1 5 [[dK1; dK2; dK3; dK4; dKeq]]))
      | _ => Raise ValueError
      end
  | _ => Raise ValueError
  end.

Definition M4 : candidate := fun x p grad =>
  match x with
  | [x1; x2; x3] =>
      let x32 := x3 / x2 in
      match p with
      | [K1; K2; K3; K4; Keq] =>
          let nom := x1 * x2 ^ 2 - x3 / Keq in
          let dnm := K1 + K2 * x1 + K3 * x32 + K4 * x3 in
          let y := nom / (x2 * dnm ^ 2) in
          if negb grad then Ok ([y], None)
          else
            let dK1 := - 2 * y / dnm in
            let dK2 := dK1 * x1 in
            let dK3 := dK1 * x32 in
            let dK4 := dK1 * x3 in
            let dKeq := x32 / (Keq * dnm) ^ 2 in
            Ok ([y], Some (mkMatrix 1 5 [[dK1; dK2; dK3; dK4; dKeq]]))
      | _ => Raise ValueError
      end
  | _ => Raise ValueError
  end.

(** The list of models returned by [get]. *)
Definition get_models : list candidate := [M1; M2; M3; M4; M5].

(** [v] lies within [bounds], component by component. *)
Definition within (bounds : list (R * R)) (v : list R) : Prop :=
  Forall2 (fun b t => fst b <= t <= snd b) bounds v.

(** Entry [i] of the row returned by [f] at [(x, p)] is the partial
    derivative of the value of [f] with respect to the parameter [i]. *)
Definition partial_derivative (f : candidate) (x p : list R) (i : nat) : Prop :=
  derivable_pt_lim
    (fun t => value_of (f x (replace p i t) false))
    (nth i p 0)
    (jacobian_of (f x p true) i).

(** What a candidate owes its callers at [(x, p)]: a value, the same value
    together with a 1 x 5 row when the gradient is asked for, and a row made
    of the five partial derivatives. *)
Definition faithful_at (f : candidate) (x p : list R) : Prop :=
  exists y row,
    f x p false = Ok ([y], None) /\
    f x p true = Ok ([y], Some (mkMatrix 1 5 [row])) /\
    length row = 5%nat /\
    forall i, (i < 5)%nat -> partial_derivative f x p i.


End BFF1983Rivals.

(** ** Life cycle of a marginaliser *)

Module MarginalLifecycle.
Import Numpy AnalyticMarginal MarginalSpec.

(** The objects a caller can obtain: a fresh one, and whatever the [Sigma]
    setter or [compute_param_covar] leave behind, whether they raise or
    not. *)
Inductive reachable (model : Model) (param_mean : list R) : Analytic -> Prop :=
| reach_init :
    reachable model param_mean (__init__ model param_mean)
| reach_setter (self : Analytic) (value : pyobj) :
    reachable model param_mean self ->
    reachable model param_mean (snd (Sigma_setter self value))
| reach_compute (self : Analytic) (X : list (list R)) (noise : noise_model) :
    reachable model param_mean self ->
    reachable model param_mean (snd (compute_param_covar self X noise)).

(** The stored covariance, if any, is D x D. *)
Definition Sigma_fits (self : Analytic) : Prop :=
  match Sigma self with
  | None => True
  | Some Sig => shape Sig = (length (param_mean self), length (param_mean self))
  end.

(** For a single parameter: the information
    [sum over e of (1 / var_e) * sum over n of J_n[e,0]^2]. *)
Definition information_1 (self : Analytic) (X : list (list R)) (var : list R)
  : R :=
  big_sum (num_outputs self)
    (fun e =>
       1 / nth e var 0 *
       big_sum (length X)
         (fun n => get (jacobian self (nth n X [])) e 0
                   * get (jacobian self (nth n X [])) e 0)).

(** Entrywise sum of two D x D arrays. *)
Definition add_entries (D : nat) (A B : matrix) : matrix :=
  tabulate D D (fun i j => get A i j + get B i j).

End MarginalLifecycle.

(** ** [vanilla_gp_model.py]: the attributes [gps] and [gp_noise_var] *)

Module SurrogateAttributes.
Import AnalyticMarginal.

(** The part of a [VanillaGPModel] behind the properties [gps] and
    [gp_noise_var].  [GP] is the type of the regression objects.  An
    attribute that does not exist is [None]; [_gps] may exist and hold Python's
    [None], which is [Some None]. *)
Record Surrogate (GP : Type) : Type := mkSurrogate {
  sur_num_outputs : nat;
  _gps : option (option (list (list (option GP))));
  _gp_noise_var : option R
}.

Arguments mkSurrogate {GP} _ _ _.
Arguments sur_num_outputs {GP} _.
Arguments _gps {GP} _.
Arguments _gp_noise_var {GP} _.

(** Getter of [gps]. *)
Definition gps {GP : Type} (self : Surrogate GP)
  : option (list (list (option GP))) :=
  match _gps self with
  | None => None
  | Some value => value
  end.

(** Setter of [gps]: [value] is a list, whose length is asserted. *)
Definition gps_setter {GP : Type} (self : Surrogate GP)
  (value : list (list (option GP))) : result unit * Surrogate GP :=
  if (length value =? sur_num_outputs self)%nat
  then (Ok tt, mkSurrogate (sur_num_outputs self) (Some (Some value))
                 (_gp_noise_var self))
  else (Raise AssertionError, self).

(** Deleter of [gps]: the attribute stays and holds [None]. *)
Definition gps_deleter {GP : Type} (self : Surrogate GP) : Surrogate GP :=
  mkSurrogate (sur_num_outputs self) (Some None) (_gp_noise_var self).

(** Getter of [gp_noise_var]: reads the attribute. *)
Definition gp_noise_var {GP : Type} (self : Surrogate GP) : result R :=
  match _gp_noise_var self with
  | Some v => Ok v
  | None => Raise AttributeError
  end.

(** Setter of [gp_noise_var]: a Python number greater than zero. *)
Definition gp_noise_var_setter {GP : Type} (self : Surrogate GP)
  (value : pyobj) : result unit * Surrogate GP :=
  match value with
  | PyFloat v =>
      if Rlt_dec 0 v
      then (Ok tt, mkSurrogate (sur_num_outputs self) (_gps self) (Some v))
      else (Raise AssertionError, self)
  | _ => (Raise AssertionError, self)
  end.

(** The statement of [__init__] that follows the base class constructor:
    [self.gp_noise_var = model_dict.get('gp_noise_var', 1e-6)], where [entry]
    is the value of the key in [model_dict], if present. *)
Definition init_gp_noise_var {GP : Type} (self : Surrogate GP)
  (entry : option pyobj) : result unit * Surrogate GP :=
  gp_noise_var_setter self
    (match entry with
     | Some value => value
     | None => PyFloat 1e-6
     end).

End SurrogateAttributes.

(** ** Further test instances *)

Module MoreExamples.

(** A class that is not a kernel. *)
Definition PlainClass : VanillaGP.pyclass :=
  VanillaGP.mkClass "dict"%string ["dict"; "object"]%string.

End MoreExamples.

(** * Properties *)

(** ** Sums and arrays *)

Module NumpyFacts.
Import Numpy.

Lemma big_sum_ext (n : nat) (f g : nat -> R) :
  (forall k, (k < n)%nat -> f k = g k) -> big_sum n f = big_sum n g.
Proof.
  induction n as [|n IH]; intros H; simpl.
  - reflexivity.
  - rewrite IH by (intros k Hk; apply H; lia).
    rewrite H by lia. reflexivity.
Qed.

Lemma big_sum_zero (n : nat) (f : nat -> R) :
  (forall k, (k < n)%nat -> f k = 0) -> big_sum n f = 0.
Proof.
  induction n as [|n IH]; intros H; simpl.
  - reflexivity.
  - rewrite IH by (intros k Hk; apply H; lia).
    rewrite H by lia. lra.
Qed.

Lemma big_sum_plus (n : nat) (f g : nat -> R) :
  big_sum n (fun k => f k + g k) = big_sum n f + big_sum n g.
Proof.
  induction n as [|n IH]; simpl.
  - lra.
  - rewrite IH. lra.
Qed.

Lemma big_sum_scal (n : nat) (c : R) (f : nat -> R) :
  big_sum n (fun k => c * f k) = c * big_sum n f.
Proof.
  induction n as [|n IH]; simpl.
  - lra.
  - rewrite IH. lra.
Qed.

Lemma big_sum_shift (n : nat) (f : nat -> R) :
  big_sum (S n) f = f O + big_sum n (fun k => f (S k)).
Proof.
  induction n as [|n IH].
  - simpl. lra.
  - change (big_sum (S (S n)) f) with (big_sum (S n) f + f (S n)).
    rewrite IH. simpl. lra.
Qed.


Lemma nth_tabulated {A : Type} (n i : nat) (f : nat -> A) (d : A) :
  (i < n)%nat -> nth i (map f (seq 0 n)) d = f i.
Proof.
  intros Hi.
  rewrite (nth_indep _ d (f O)) by (rewrite length_map, length_seq; exact Hi).
  rewrite (map_nth f (seq 0 n) O i).
  rewrite seq_nth by exact Hi. reflexivity.
Qed.

Lemma get_tabulate (r c : nat) (f : nat -> nat -> R) (i j : nat) :
  (i < r)%nat -> (j < c)%nat -> get (tabulate r c f) i j = f i j.
Proof.
  intros Hi Hj. unfold get, tabulate; simpl.
  rewrite (nth_tabulated r i (fun i => map (fun j => f i j) (seq 0 c)) [] Hi).
  apply nth_tabulated. exact Hj.
Qed.

Lemma tabulate_ext (r c : nat) (f g : nat -> nat -> R) :
  (forall i j, (i < r)%nat -> (j < c)%nat -> f i j = g i j) ->
  tabulate r c f = tabulate r c g.
Proof.
  intros H. unfold tabulate. f_equal.
  apply map_ext_in. intros i Hi. apply in_seq in Hi.
  apply map_ext_in. intros j Hj. apply in_seq in Hj.
  apply H; lia.
Qed.

Lemma tabulate_well_formed (r c : nat) (f : nat -> nat -> R) :
  well_formed (tabulate r c f).
Proof.
  split; simpl.
  - rewrite length_map, length_seq. reflexivity.
  - apply Forall_forall. intros row Hrow.
    apply in_map_iff in Hrow. destruct Hrow as [i [<- _]].
    rewrite length_map, length_seq. reflexivity.
Qed.

Lemma get_outside (A : matrix) (i j : nat) :
  well_formed A -> (nrow A <= i)%nat \/ (ncol A <= j)%nat -> get A i j = 0.
Proof.
  intros [Hlen Hrows] Hout. unfold get.
  destruct (Nat.lt_ge_cases i (nrow A)) as [Hi|Hi].
  - destruct Hout as [Hout|Hout]; [lia|].
    apply nth_overflow.
    rewrite Forall_forall in Hrows. rewrite (Hrows (nth i (rows A) [])).
    + exact Hout.
    + apply nth_In. lia.
  - rewrite (nth_overflow (rows A)) by lia. destruct j; reflexivity.
Qed.

Lemma get_zeros (r c i j : nat) : get (zeros r c) i j = 0.
Proof.
  destruct (Nat.lt_ge_cases i r) as [Hi|Hi].
  - destruct (Nat.lt_ge_cases j c) as [Hj|Hj].
    + unfold zeros. rewrite get_tabulate by assumption. reflexivity.
    + apply get_outside; [apply tabulate_well_formed | right; exact Hj].
  - apply get_outside; [apply tabulate_well_formed | left; exact Hi].
Qed.

Lemma get_transpose (A : matrix) (i j : nat) :
  (i < ncol A)%nat -> (j < nrow A)%nat -> get (transpose A) i j = get A j i.
Proof.
  intros Hi Hj. unfold transpose. rewrite get_tabulate by assumption.
  reflexivity.
Qed.

Lemma get_scale (w : R) (A : matrix) (i j : nat) :
  (i < nrow A)%nat -> (j < ncol A)%nat -> get (scale w A) i j = w * get A i j.
Proof.
  intros Hi Hj. unfold scale. rewrite get_tabulate by assumption.
  reflexivity.
Qed.

Lemma get_setitem (A : matrix) (i j a b : nat) (v : R) :
  (a < nrow A)%nat -> (b < ncol A)%nat ->
  get (setitem A i j v) a b =
  if (a =? i)%nat && (b =? j)%nat then v else get A a b.
Proof.
  intros Ha Hb. unfold setitem. rewrite get_tabulate by assumption.
  reflexivity.
Qed.

Lemma bidx_same (n i : nat) : (i < n)%nat -> bidx n i = i.
Proof.
  intros Hi. unfold bidx. destruct (Nat.eqb_spec n 1); [lia | reflexivity].
Qed.

Lemma shape_eqb_eq (s t : nat * nat) : shape_eqb s t = true <-> s = t.
Proof.
  destruct s as [a b], t as [c d]. unfold shape_eqb; simpl.
  rewrite andb_true_iff, !Nat.eqb_eq. split.
  - intros [-> ->]. reflexivity.
  - intros H. inversion H. split; reflexivity.
Qed.

Lemma matmul_ok (A B : matrix) :
  ncol A = nrow B ->
  matmul A B =
  Ok (tabulate (nrow A) (ncol B)
        (fun i j => big_sum (ncol A) (fun k => get A i k * get B k j))).
Proof.
  intros H. unfold matmul. rewrite H, Nat.eqb_refl. reflexivity.
Qed.

Lemma iadd_ok (A B : matrix) :
  nrow B = nrow A -> ncol B = ncol A ->
  iadd A B =
  Ok (tabulate (nrow A) (ncol A) (fun i j => get A i j + get B i j)).
Proof.
  intros Hr Hc. unfold iadd, broadcastable.
  rewrite Hr, Hc, !Nat.eqb_refl. simpl. f_equal.
  apply tabulate_ext. intros i j Hi Hj.
  rewrite !bidx_same by assumption. reflexivity.
Qed.

Lemma store_row_ok (n : nat) (v : list R) :
  length v = n -> store_row n v = Ok v.
Proof.
  intros H. unfold store_row, broadcastable. rewrite H, Nat.eqb_refl. simpl.
  f_equal. subst n. apply nth_ext with (d := 0) (d' := 0).
  - rewrite length_map, length_seq. reflexivity.
  - intros k Hk. rewrite length_map, length_seq in Hk.
    rewrite nth_tabulated by exact Hk.
    rewrite bidx_same by exact Hk. reflexivity.
Qed.

Lemma store_matrix_ok (r c : nat) (J : matrix) :
  shape J = (r, c) ->
  store_matrix r c J = Ok (tabulate r c (get J)).
Proof.
  intros H. inversion H as [[Hr Hc]]. unfold store_matrix, broadcastable.
  rewrite !Nat.eqb_refl. simpl. f_equal.
  apply tabulate_ext. intros i j Hi Hj.
  rewrite !bidx_same by assumption. reflexivity.
Qed.


Lemma inv_shape (A B : matrix) :
  inv A = Ok B -> nrow A = ncol A /\ shape B = shape A.
Proof.
  unfold inv. destruct (Nat.eqb_spec (nrow A) (ncol A)) as [Hsq|Hsq].
  - destruct (Req_dec_T _ 0); intros H; inversion H; subst; clear H.
    split; [exact Hsq|]. unfold shape; simpl. rewrite <- Hsq. reflexivity.
  - discriminate.
Qed.

Lemma inv_ok (A : matrix) :
  nrow A = ncol A -> det (nrow A) (get A) <> 0 ->
  exists B, inv A = Ok B /\ shape B = shape A.
Proof.
  intros Hsq Hdet. unfold inv. rewrite Hsq, Nat.eqb_refl.
  rewrite <- Hsq.
  destruct (Req_dec_T _ 0) as [H0|_]; [contradiction|].
  eexists. split; [reflexivity|]. unfold shape; simpl. rewrite <- Hsq.
  reflexivity.
Qed.


Lemma for_each_app {A B : Type} (xs ys : list B) (body : A -> B -> result A)
  (acc : A) :
  for_each (xs ++ ys) body acc =
  (acc' <- for_each xs body acc ;; for_each ys body acc').
Proof.
  revert acc. induction xs as [|x xs IH]; intros acc; simpl.
  - reflexivity.
  - destruct (body acc x); simpl; [apply IH | reflexivity].
Qed.

(** A loop over [range(a, a+k)] whose body adds one term to every entry of a
    D x D accumulator. *)
Lemma for_each_accumulate (D : nat) (term : nat -> nat -> nat -> R)
  (body : matrix -> nat -> result matrix) (k : nat) :
  forall (a : nat) (F : nat -> nat -> R),
  (forall e G, (a <= e < a + k)%nat ->
     body (tabulate D D G) e =
     Ok (tabulate D D (fun i j => G i j + term e i j))) ->
  for_each (seq a k) body (tabulate D D F) =
  Ok (tabulate D D
        (fun i j => F i j + big_sum k (fun t => term (a + t)%nat i j))).
Proof.
  induction k as [|k IH]; intros a F Hbody.
  - simpl. f_equal. apply tabulate_ext. intros; lra.
  - cbn [seq for_each]. rewrite Hbody by lia. cbn [bind].
    rewrite IH by (intros e G He; apply Hbody; lia).
    f_equal. apply tabulate_ext. intros i j _ _.
    rewrite (big_sum_shift k (fun t => term (a + t)%nat i j)).
    rewrite Nat.add_0_r.
    rewrite (big_sum_ext k (fun t => term (S a + t)%nat i j)
               (fun t => term (a + S t)%nat i j))
      by (intros t _; f_equal; lia).
    lra.
Qed.

End NumpyFacts.

(** ** The information matrix of [compute_param_covar] *)

Module EstimatorFacts.
Import Numpy AnalyticMarginal MarginalSpec NumpyFacts.

Lemma grads_ok (self : Analytic) (X : list (list R)) :
  Forall (respects_contract self) X ->
  comprehension (grad self) X = Ok (map (jacobian self) X).
Proof.
  induction 1 as [|x X Hx _ IH]; simpl.
  - reflexivity.
  - rewrite IH. destruct Hx as [y [J [Hcall _]]].
    unfold grad, jacobian. rewrite Hcall. reflexivity.
Qed.

Lemma jacobian_shape (self : Analytic) (x : list R) :
  respects_contract self x ->
  shape (jacobian self x) = (num_outputs self, length (param_mean self)).
Proof.
  intros [y [J [Hcall [_ Hshape]]]]. unfold jacobian. rewrite Hcall. exact Hshape.
Qed.

Lemma stack_ok (self : Analytic) (X : list (list R)) :
  X <> [] -> Forall (respects_contract self) X ->
  stack (map (jacobian self) X) =
  Some (mkTensor (length X) (num_outputs self) (length (param_mean self))
          (map (jacobian self) X)).
Proof.
  intros Hne Hall. destruct X as [|x X]; [contradiction|].
  assert (Hx : shape (jacobian self x)
               = (num_outputs self, length (param_mean self))).
  { apply jacobian_shape. inversion Hall; assumption. }
  cbn [map stack].
  replace (forallb _ _) with true.
  - inversion Hx as [[Hr Hc]]. rewrite Hr, Hc.
    cbn [length]. rewrite length_map. reflexivity.
  - symmetry. apply forallb_forall. intros J HJ.
    change (jacobian self x :: map (jacobian self) X)
      with (map (jacobian self) (x :: X)) in HJ.
    apply in_map_iff in HJ. destruct HJ as [x' [<- Hin]].
    apply shape_eqb_eq. rewrite Hx. apply jacobian_shape.
    rewrite Forall_forall in Hall. apply Hall. exact Hin.
Qed.

Lemma d_mu_d_p_ok (self : Analytic) (X : list (list R)) :
  X <> [] -> Forall (respects_contract self) X ->
  d_mu_d_p self X =
  Ok (mkTensor (length X) (num_outputs self) (length (param_mean self))
        (map (jacobian self) X)).
Proof.
  intros Hne Hall. unfold d_mu_d_p.
  rewrite grads_ok by exact Hall. cbn [bind].
  rewrite stack_ok by assumption. reflexivity.
Qed.

(** With no training point the array of gradients is one-dimensional and the
    assertion of [d_mu_d_p] fails. *)
Lemma d_mu_d_p_empty (self : Analytic) :
  d_mu_d_p self [] = Raise AssertionError.
Proof. reflexivity. Qed.

Lemma take_axis1_ok (self : Analytic) (X : list (list R)) (e : nat) :
  (e < num_outputs self)%nat ->
  take_axis1
    (mkTensor (length X) (num_outputs self) (length (param_mean self))
       (map (jacobian self) X)) e
  = Ok (dmu_of self X e).
Proof.
  intros He. unfold take_axis1. cbn [dim0 dim1 dim2 slices].
  apply Nat.ltb_lt in He. rewrite He. f_equal.
  apply tabulate_ext. intros n d Hn _.
  rewrite (nth_indep _ (zeros 0 0) (jacobian self []))
    by (rewrite length_map; exact Hn).
  rewrite map_nth. reflexivity.
Qed.

(** One statement [iA += w * np.matmul(A.T, B)]. *)
Lemma add_gram (D : nat) (G : nat -> nat -> R) (w : R) (A B : matrix) :
  ncol A = D -> ncol B = D -> nrow A = nrow B ->
  (P <- matmul (transpose A) B ;; iadd (tabulate D D G) (scale w P)) =
  Ok (tabulate D D (fun i j => G i j + w * gram A B i j)).
Proof.
  intros HA HB Hrows.
  rewrite matmul_ok by exact Hrows.
  cbn [bind].
  set (P := tabulate (nrow (transpose A)) _ _).
  assert (HPr : nrow P = D) by exact HA.
  assert (HPc : ncol P = D) by exact HB.
  rewrite iadd_ok by (simpl; congruence).
  f_equal. change (nrow (tabulate D D G)) with D.
  change (ncol (tabulate D D G)) with D.
  apply tabulate_ext. intros i j Hi Hj.
  rewrite get_tabulate by assumption.
  rewrite get_scale by congruence.
  unfold P. rewrite get_tabulate by (simpl; congruence).
  f_equal. f_equal. unfold gram. apply big_sum_ext. intros k Hk.
  rewrite get_transpose by congruence. reflexivity.
Qed.

Lemma getitem_ok (A : matrix) (i j : nat) :
  (i < nrow A)%nat -> (j < ncol A)%nat -> getitem A i j = Ok (get A i j).
Proof.
  intros Hi Hj. unfold getitem.
  apply Nat.ltb_lt in Hi. apply Nat.ltb_lt in Hj. rewrite Hi, Hj. reflexivity.
Qed.

Lemma get_diag_inverse (v : list R) (e : nat) :
  (e < length v)%nat ->
  get (diag (map (fun s => 1 / s) v)) e e = 1 / nth e v 0.
Proof.
  intros He. unfold diag. rewrite length_map.
  rewrite get_tabulate by assumption. rewrite Nat.eqb_refl.
  rewrite (nth_indep _ 0 (1 / 0)) by (rewrite length_map; exact He).
  apply (map_nth (fun s => 1 / s)).
Qed.

Section Loops.
Variable self : Analytic.
Variable X : list (list R).

#[local] Abbreviation E := (num_outputs self).
#[local] Abbreviation D := (length (param_mean self)).
#[local] Abbreviation dmu := (mkTensor (length X) E D (map (jacobian self) X)).

(** The body of the outer loop on the vector path adds the diagonal term of
    output [e1]. *)
Lemma output_terms_vector (w : matrix) (G : nat -> nat -> R) (e1 : nat) :
  shape w = (E, E) -> (e1 < E)%nat ->
  output_terms true w dmu E (tabulate D D G) e1 =
  Ok (tabulate D D
        (fun i j =>
           G i j
           + get w e1 e1 * gram (dmu_of self X e1) (dmu_of self X e1) i j)).
Proof.
  intros Hw He. assert (Hwr : nrow w = E) by (unfold shape in Hw; congruence).
  assert (Hwc : ncol w = E) by (unfold shape in Hw; congruence).
  unfold output_terms.
  rewrite take_axis1_ok by exact He. cbn [bind].
  rewrite getitem_ok by lia. cbn [bind].
  pose proof (add_gram (length (param_mean self)) G (get w e1 e1)
                (dmu_of self X e1) (dmu_of self X e1)
                eq_refl eq_refl eq_refl) as Hstep.
  unfold bind in Hstep |- *.
  destruct (matmul _ _) as [P|err]; [|discriminate].
  rewrite Hstep. reflexivity.
Qed.

(** The body of the inner loop adds the two cross terms of the pair
    [(e1, e2)], or nothing when [w[e1, e2]] is zero. *)
Lemma cross_terms_step (w : matrix) (G : nat -> nat -> R) (e1 e2 : nat) :
  shape w = (E, E) -> (e1 < E)%nat -> (e2 < E)%nat ->
  cross_terms w dmu (dmu_of self X e1) e1 (tabulate D D G) e2 =
  Ok (tabulate D D (fun i j => G i j + cross_pair self X w e1 e2 i j)).
Proof.
  intros Hw He1 He2. assert (Hwr : nrow w = E) by (unfold shape in Hw; congruence).
  assert (Hwc : ncol w = E) by (unfold shape in Hw; congruence).
  unfold cross_terms, cross_pair.
  rewrite getitem_ok by lia. cbn [bind].
  destruct (Req_dec_T (get w e1 e2) 0) as [Hz|Hnz].
  - f_equal. apply tabulate_ext. intros; lra.
  - rewrite take_axis1_ok by exact He2. cbn [bind].
    pose proof (add_gram (length (param_mean self)) G (get w e1 e2)
                  (dmu_of self X e1) (dmu_of self X e2)
                  eq_refl eq_refl eq_refl) as Hstep1.
    unfold bind in Hstep1 |- *.
    destruct (matmul (transpose (dmu_of self X e1)) _) as [P12|err];
      [|discriminate].
    rewrite Hstep1.
    rewrite getitem_ok by lia.
    pose proof (add_gram (length (param_mean self))
                  (fun i j => G i j
                     + get w e1 e2
                       * gram (dmu_of self X e1) (dmu_of self X e2) i j)
                  (get w e2 e1)
                  (dmu_of self X e2) (dmu_of self X e1)
                  eq_refl eq_refl eq_refl) as Hstep2.
    unfold bind in Hstep2.
    destruct (matmul (transpose (dmu_of self X e2)) _) as [P21|err];
      [|discriminate].
    rewrite Hstep2. f_equal. apply tabulate_ext. intros; lra.
Qed.

Lemma output_terms_matrix (w : matrix) (G : nat -> nat -> R) (e1 : nat) :
  shape w = (E, E) -> (e1 < E)%nat ->
  output_terms false w dmu E (tabulate D D G) e1 =
  Ok (tabulate D D
        (fun i j =>
           G i j
           + (get w e1 e1 * gram (dmu_of self X e1) (dmu_of self X e1) i j
              + big_sum (E - (e1 + 1))
                  (fun t => cross_pair self X w e1 (e1 + 1 + t) i j)))).
Proof.
  intros Hw He. assert (Hwr : nrow w = E) by (unfold shape in Hw; congruence).
  assert (Hwc : ncol w = E) by (unfold shape in Hw; congruence).
  unfold output_terms.
  rewrite take_axis1_ok by exact He. cbn [bind].
  rewrite getitem_ok by lia. cbn [bind].
  pose proof (add_gram D G (get w e1 e1)
                (dmu_of self X e1) (dmu_of self X e1)
                eq_refl eq_refl eq_refl) as Hstep.
  unfold bind in Hstep |- *.
  destruct (matmul _ _) as [P|err]; [|discriminate].
  rewrite Hstep. unfold range.
  rewrite (for_each_accumulate D
             (fun e2 i j => cross_pair self X w e1 e2 i j)).
  - f_equal. apply tabulate_ext. intros; lra.
  - intros e2 G' He2. apply cross_terms_step; [exact Hw | exact He | lia].
Qed.

End Loops.

Lemma information_matrix_vector (self : Analytic) (X : list (list R))
  (var : list R) :
  X <> [] -> Forall (respects_contract self) X ->
  length var = num_outputs self ->
  information_matrix self X (NoiseVector var) = Ok (I_inv_vector self X var).
Proof.
  intros Hne Hall Hlen. unfold information_matrix. cbn [bind ndim_is_1].
  rewrite d_mu_d_p_ok by assumption. cbn [bind].
  unfold range, zeros. rewrite Nat.sub_0_r.
  rewrite (for_each_accumulate (length (param_mean self))
             (fun e i j =>
                get (diag (map (fun s => 1 / s) var)) e e
                * gram (dmu_of self X e) (dmu_of self X e) i j)).
  - f_equal. unfold I_inv_vector. apply tabulate_ext. intros i j _ _.
    rewrite Rplus_0_l. apply big_sum_ext. intros e He.
    rewrite Nat.add_0_l. rewrite get_diag_inverse by lia. reflexivity.
  - intros e G He. apply output_terms_vector; [|lia].
    unfold shape, diag; simpl. rewrite length_map, Hlen. reflexivity.
Qed.

Lemma information_matrix_full (self : Analytic) (X : list (list R))
  (m w : matrix) :
  X <> [] -> Forall (respects_contract self) X ->
  shape m = (num_outputs self, num_outputs self) ->
  inv m = Ok w ->
  information_matrix self X (NoiseMatrix m) = Ok (I_inv_matrix self X w).
Proof.
  intros Hne Hall Hm Hw. unfold information_matrix. rewrite Hw.
  cbn [bind ndim_is_1].
  rewrite d_mu_d_p_ok by assumption. cbn [bind].
  unfold range, zeros. rewrite Nat.sub_0_r.
  assert (Hshape : shape w = (num_outputs self, num_outputs self)).
  { apply inv_shape in Hw. destruct Hw as [_ Hw]. congruence. }
  rewrite (for_each_accumulate (length (param_mean self))
             (fun e1 i j =>
                get w e1 e1 * gram (dmu_of self X e1) (dmu_of self X e1) i j
                + big_sum (num_outputs self - (e1 + 1))
                    (fun t => cross_pair self X w e1 (e1 + 1 + t) i j))).
  - f_equal. unfold I_inv_matrix. apply tabulate_ext. intros i j _ _.
    rewrite Rplus_0_l. apply big_sum_ext. intros e He. reflexivity.
  - intros e G He. apply output_terms_matrix; [exact Hshape | lia].
Qed.

(** The last two statements of [compute_param_covar]: inversion, then the
    setter, whose assertions hold for the inverse of a D x D matrix. *)
Lemma compute_param_covar_from (self : Analytic) (X : list (list R))
  (noise : noise_model) (iA : matrix) :
  information_matrix self X noise = Ok iA ->
  shape iA = (length (param_mean self), length (param_mean self)) ->
  compute_param_covar self X noise =
  match inv iA with
  | Ok Sig => (Ok tt, with_Sigma self Sig)
  | Raise e => (Raise e, self)
  end.
Proof.
  intros HiA Hshape. unfold compute_param_covar. rewrite HiA. cbn [bind].
  destruct (inv iA) as [Sig|e] eqn:Hinv; [|reflexivity].
  apply inv_shape in Hinv. destruct Hinv as [_ HSig].
  unfold Sigma_setter. cbn [isinstance_ndarray].
  replace (shape_eqb _ _) with true; [reflexivity|].
  symmetry. apply shape_eqb_eq. congruence.
Qed.

End EstimatorFacts.

(** ** The prediction of [__call__] *)

Module PredictFacts.
Import Numpy AnalyticMarginal MarginalSpec NumpyFacts.

Lemma comprehension_map {A B : Type} (f : A -> result B) (g : A -> B)
  (xs : list A) :
  Forall (fun x => f x = Ok (g x)) xs ->
  comprehension f xs = Ok (map g xs).
Proof.
  induction 1 as [|x xs Hx _ IH]; simpl.
  - reflexivity.
  - rewrite Hx, IH. reflexivity.
Qed.

Lemma comprehension_map_map {A B C : Type} (f : B -> result C) (h : A -> B)
  (g : A -> C) (xs : list A) :
  Forall (fun x => f (h x) = Ok (g x)) xs ->
  comprehension f (map h xs) = Ok (map g xs).
Proof.
  induction 1 as [|x xs Hx _ IH]; simpl.
  - reflexivity.
  - rewrite Hx, IH. reflexivity.
Qed.


(** The two nested products of the second loop, for a stored Jacobian. *)
Lemma propagate_ok (E D : nat) (Sig J : matrix) :
  shape Sig = (D, D) -> ncol J = D ->
  (inner <- matmul_Sigma (Some Sig) (transpose (tabulate E D (get J))) ;;
   matmul (tabulate E D (get J)) inner) =
  Ok (tabulate E E (propagate Sig J)).
Proof.
  intros HSig HJ.
  assert (Hr : nrow Sig = D) by (unfold shape in HSig; congruence).
  assert (Hc : ncol Sig = D) by (unfold shape in HSig; congruence).
  unfold matmul_Sigma. rewrite matmul_ok by exact Hc. cbn [bind].
  rewrite matmul_ok by (symmetry; exact Hr). f_equal.
  cbn [nrow ncol tabulate transpose]. fold (tabulate E D (get J)).
  apply tabulate_ext. intros a b Ha Hb. unfold propagate. rewrite HJ.
  apply big_sum_ext. intros k Hk.
  rewrite get_tabulate by assumption. f_equal.
  match goal with
  | |- get ?P k b = _ =>
      change P with
        (tabulate (nrow Sig) E
           (fun i j => big_sum (ncol Sig)
              (fun l => get Sig i l * get (transpose (tabulate E D (get J))) l j)))
  end.
  rewrite get_tabulate by lia. rewrite Hc.
  apply big_sum_ext. intros l Hl.
  rewrite get_transpose by assumption.
  rewrite get_tabulate by assumption. reflexivity.
Qed.

(** After the iterations [0 .. k-1] of the last loop, the first [k]
    diagonal entries of every slice are floored. *)
Lemma clamp_loop {A : Type} (E : nat) (F : A -> nat -> nat -> R)
  (xs : list A) (k : nat) :
  (k <= E)%nat ->
  fold_left clamp (seq 0 k) (map (fun x => tabulate E E (F x)) xs) =
  map (fun x =>
         tabulate E E
           (fun a b =>
              if (a =? b)%nat && (a <? k)%nat
              then Rmax variance_floor (F x a a)
              else F x a b)) xs.
Proof.
  induction k as [|k IH]; intros Hk.
  - simpl. apply map_ext. intros x. apply tabulate_ext. intros a b _ _.
    rewrite andb_false_r. reflexivity.
  - rewrite seq_S, fold_left_app, IH by lia. simpl.
    unfold clamp. rewrite map_map. apply map_ext. intros x.
    unfold setitem. cbn [nrow ncol tabulate].
    apply tabulate_ext. intros a b Ha Hb.
    match goal with
    | |- context [get ?P a b] =>
        change P with
          (tabulate E E
             (fun a0 b0 =>
                if (a0 =? b0)%nat && (a0 <? k)%nat
                then Rmax variance_floor (F x a0 a0)
                else F x a0 b0))
    end.
    rewrite !get_tabulate by lia.
    rewrite Nat.eqb_refl, Nat.ltb_irrefl. cbn [andb].
    destruct (Nat.eqb_spec a k) as [->|Hak].
    + destruct (Nat.eqb_spec b k) as [->|Hbk]; cbn [andb].
      * rewrite Nat.eqb_refl. cbn [andb].
        replace (k <? S k)%nat with true by (symmetry; apply Nat.ltb_lt; lia).
        reflexivity.
      * destruct (Nat.eqb_spec k b) as [Heq|_]; [congruence|]. reflexivity.
    + cbn [andb]. destruct (Nat.eqb_spec a b) as [->|Hab]; cbn [andb].
      * destruct (Nat.ltb_spec b k) as [Hlt|Hge];
          destruct (Nat.ltb_spec b (S k)) as [Hlt'|Hge']; try lia; reflexivity.
      * reflexivity.
Qed.

Lemma first_loop_ok (self : Analytic) (xnew : list (list R)) :
  Forall (respects_contract self) xnew ->
  comprehension
    (fun x =>
       r <- call self x (param_mean self) ;;
       Mn <- store_row (num_outputs self) (fst r) ;;
       dmun <- store_matrix (num_outputs self) (length (param_mean self)) (snd r) ;;
       Ok (Mn, dmun)) xnew =
  Ok (map (fun x =>
             (mean_at self x,
              tabulate (num_outputs self) (length (param_mean self))
                (get (jacobian self x)))) xnew).
Proof.
  intros Hall. apply comprehension_map.
  eapply Forall_impl; [|exact Hall].
  intros x [y [J [Hcall [Hy HJ]]]].
  unfold mean_at, jacobian. rewrite Hcall. cbn [bind fst snd].
  rewrite store_row_ok by exact Hy. cbn [bind].
  rewrite store_matrix_ok by exact HJ. reflexivity.
Qed.

(** The result of [__call__] once a D x D covariance is stored. *)
Lemma call_result (self : Analytic) (xnew : list (list R)) (Sig : matrix) :
  Sigma self = Some Sig ->
  shape Sig = (length (param_mean self), length (param_mean self)) ->
  Forall (respects_contract self) xnew ->
  __call__ self xnew =
  Ok (mkMatrix (length xnew) (num_outputs self) (map (mean_at self) xnew),
      mkTensor (length xnew) (num_outputs self) (num_outputs self)
        (map (fun x => floored (num_outputs self) Sig (jacobian self x)) xnew)).
Proof.
  intros HSig Hshape Hall. unfold __call__.
  rewrite first_loop_ok by exact Hall. cbn [bind]. cbv zeta.
  rewrite !map_map. cbn [fst snd].
  rewrite (comprehension_map_map _ _
             (fun x => tabulate (num_outputs self) (num_outputs self)
                         (propagate Sig (jacobian self x)))).
  - cbn [bind]. unfold range. rewrite Nat.sub_0_r.
    rewrite (clamp_loop (num_outputs self)
               (fun x => propagate Sig (jacobian self x)) xnew
               (num_outputs self) (Nat.le_refl _)).
    f_equal. f_equal. f_equal. apply map_ext. intros x. unfold floored.
    apply tabulate_ext. intros a b Ha Hb.
    apply Nat.ltb_lt in Ha. rewrite Ha, andb_true_r. reflexivity.
  - eapply Forall_impl; [|exact Hall].
    intros x Hx. rewrite HSig. apply propagate_ok; [exact Hshape|].
    apply EstimatorFacts.jacobian_shape in Hx.
    unfold shape in Hx. congruence.
Qed.



End PredictFacts.

(** ** The gradient of the candidate model [M5] *)

Module GradientFacts.
Import Numpy BFF1983.

Lemma derivable_pt_lim_ext (f g : R -> R) (x l l' : R) :
  (forall t, f t = g t) -> l = l' ->
  derivable_pt_lim f x l -> derivable_pt_lim g x l'.
Proof.
  intros Hfg <- Hf eps Heps. destruct (Hf eps Heps) as [delta Hdelta].
  exists delta. intros h Hh Hlt. rewrite <- !Hfg. apply Hdelta; assumption.
Qed.

Lemma derivable_pt_lim_affine (a b x : R) :
  derivable_pt_lim (fun t => a * t + b) x a.
Proof.
  apply (derivable_pt_lim_ext (fct_cte a * id + fct_cte b)%F
           (fun t => a * t + b) x (0 * id x + fct_cte a x * 1 + 0)).
  - intros t. reflexivity.
  - unfold fct_cte, id. ring.
  - apply derivable_pt_lim_plus.
    + apply derivable_pt_lim_mult.
      * apply derivable_pt_lim_const.
      * apply derivable_pt_lim_id.
    + apply derivable_pt_lim_const.
Qed.

(** Derivative of [t |-> nom / (a t + b)^2]. *)
Lemma derivable_pt_lim_inverse_square (nom a b x : R) :
  a * x + b <> 0 ->
  derivable_pt_lim (fun t => nom / (a * t + b) ^ 2) x
    (- 2 * (nom / (a * x + b) ^ 2) / (a * x + b) * a).
Proof.
  intros Hd.
  pose (g := fun t : R => a * t + b).
  assert (Hg : derivable_pt_lim g x a) by apply derivable_pt_lim_affine.
  assert (Hsq : derivable_pt_lim (g * g)%F x (a * g x + g x * a))
    by (apply derivable_pt_lim_mult; assumption).
  assert (Hc : derivable_pt_lim (fct_cte nom) x 0)
    by apply derivable_pt_lim_const.
  assert (Hnz : (g * g)%F x <> 0).
  { unfold mult_fct, g. apply Rmult_integral_contrapositive_currified; exact Hd. }
  pose proof (derivable_pt_lim_div (fct_cte nom) (g * g)%F x _ _ Hc Hsq Hnz)
    as Hdiv.
  apply (derivable_pt_lim_ext _ _ _ _ _ (fun t => eq_refl) eq_refl) in Hdiv.
  eapply derivable_pt_lim_ext; [| |exact Hdiv].
  - intros t. unfold div_fct, mult_fct, fct_cte, g. simpl. f_equal. ring.
  - unfold mult_fct, fct_cte, g, Rsqr. field. exact Hd.
Qed.

(** Derivative of [t |-> (c - x3 / t) / d]. *)
Lemma derivable_pt_lim_equilibrium (c x3 d x : R) :
  x <> 0 -> d <> 0 ->
  derivable_pt_lim (fun t => (c - x3 / t) / d) x (x3 / (x ^ 2 * d)).
Proof.
  intros Hx Hd.
  assert (Hq : derivable_pt_lim (fct_cte x3 / id)%F x
                 ((0 * id x - 1 * fct_cte x3 x) / Rsqr (id x))).
  { apply derivable_pt_lim_div.
    - apply derivable_pt_lim_const.
    - apply derivable_pt_lim_id.
    - exact Hx. }
  assert (Hm : derivable_pt_lim (fct_cte c - fct_cte x3 / id)%F x
                 (0 - (0 * id x - 1 * fct_cte x3 x) / Rsqr (id x))).
  { apply derivable_pt_lim_minus; [apply derivable_pt_lim_const | exact Hq]. }
  pose proof (derivable_pt_lim_scal _ (/ d) x _ Hm) as Hs.
  eapply derivable_pt_lim_ext; [| |exact Hs].
  - intros t. unfold mult_real_fct, minus_fct, div_fct, fct_cte, id.
    unfold Rdiv. ring.
  - unfold fct_cte, id, Rsqr. field. split; assumption.
Qed.

(** Whenever the denominator and [Keq] do not vanish, every entry of the
    row returned with [grad=True] is the partial derivative of the value with
    respect to the corresponding parameter. *)
Lemma M5_gradient_is_derivative (x1 x2 x3 K1 K2 K3 K4 Keq : R) (i : nat) :
  K1 + K2 * x2 + K3 * x1 * x2 + K4 * x3 <> 0 -> Keq <> 0 -> (i < 5)%nat ->
  derivable_pt_lim
    (fun t =>
       value_of (M5 [x1; x2; x3] (replace [K1; K2; K3; K4; Keq] i t) false))
    (nth i [K1; K2; K3; K4; Keq] 0)
    (jacobian_of (M5 [x1; x2; x3] [K1; K2; K3; K4; Keq] true) i).
Proof.
  intros Hd HK Hi.
  set (nom := x1 * x2 ^ 2 - x3 / Keq).
  set (dnm := K1 + K2 * x2 + K3 * x1 * x2 + K4 * x3) in Hd.
  destruct i as [|[|[|[|[|i]]]]]; [| | | | |lia];
    cbn [M5 replace value_of jacobian_of negb nth get rows].
  - assert (Hd' : 1 * K1 + (K2 * x2 + K3 * x1 * x2 + K4 * x3) <> 0)
      by (replace (1 * K1 + (K2 * x2 + K3 * x1 * x2 + K4 * x3)) with dnm
            by (unfold dnm; ring); exact Hd).
    eapply derivable_pt_lim_ext;
      [| |exact (derivable_pt_lim_inverse_square nom 1 _ K1 Hd')].
    + intros t. unfold nom. f_equal. f_equal. ring.
    + unfold nom. field. repeat split; first [exact Hd | exact Hd' | exact HK].
  - assert (Hd' : x2 * K2 + (K1 + K3 * x1 * x2 + K4 * x3) <> 0)
      by (replace (x2 * K2 + (K1 + K3 * x1 * x2 + K4 * x3)) with dnm
            by (unfold dnm; ring); exact Hd).
    eapply derivable_pt_lim_ext;
      [| |exact (derivable_pt_lim_inverse_square nom x2 _ K2 Hd')].
    + intros t. unfold nom. f_equal. f_equal. ring.
    + unfold nom. field. repeat split; first [exact Hd | exact Hd' | exact HK].
  - assert (Hd' : x1 * x2 * K3 + (K1 + K2 * x2 + K4 * x3) <> 0)
      by (replace (x1 * x2 * K3 + (K1 + K2 * x2 + K4 * x3)) with dnm
            by (unfold dnm; ring); exact Hd).
    eapply derivable_pt_lim_ext;
      [| |exact (derivable_pt_lim_inverse_square nom (x1 * x2) _ K3 Hd')].
    + intros t. unfold nom. f_equal. f_equal. ring.
    + unfold nom. field. repeat split; first [exact Hd | exact Hd' | exact HK].
  - assert (Hd' : x3 * K4 + (K1 + K2 * x2 + K3 * x1 * x2) <> 0)
      by (replace (x3 * K4 + (K1 + K2 * x2 + K3 * x1 * x2)) with dnm
            by (unfold dnm; ring); exact Hd).
    eapply derivable_pt_lim_ext;
      [| |exact (derivable_pt_lim_inverse_square nom x3 _ K4 Hd')].
    + intros t. unfold nom. f_equal. f_equal. ring.
    + unfold nom. field. repeat split; first [exact Hd | exact Hd' | exact HK].
  - assert (Hd2 : dnm ^ 2 <> 0) by (apply pow_nonzero; exact Hd).
    eapply derivable_pt_lim_ext;
      [| |exact (derivable_pt_lim_equilibrium (x1 * x2 ^ 2) x3 _ Keq HK Hd2)].
    + intros t. reflexivity.
    + unfold dnm. field. repeat split; first [exact Hd | exact HK].
Qed.

Lemma replace_same (p : list R) (i : nat) :
  replace p i (nth i p 0) = p.
Proof.
  revert i. induction p as [|a p IH]; intros i.
  - destruct i; reflexivity.
  - destruct i as [|i]; simpl; [reflexivity | rewrite IH; reflexivity].
Qed.

(** *** Finite differences *)

Lemma Rabs_bounds (u c : R) : Rabs u <= c -> - c <= u <= c.
Proof. unfold Rabs. destruct (Rcase_abs u); lra. Qed.

Lemma relative_step (w d c : R) :
  d <> 0 -> Rabs w <= c * Rabs d -> - c <= w / d <= c.
Proof.
  intros Hd Hw. apply Rabs_bounds.
  apply Rmult_le_reg_r with (Rabs d); [apply Rabs_pos_lt; exact Hd|].
  rewrite <- Rabs_mult. replace (w / d * d) with w by (field; exact Hd).
  exact Hw.
Qed.

Lemma small_factor_bound (F N B : R) :
  0 < B -> F * B = N -> - (1e-4 * B) <= N <= 1e-4 * B -> Rabs F <= 1e-4.
Proof.
  intros HB HF [Hlo Hhi]. apply Rabs_le. split.
  - apply Rmult_le_reg_r with B; [exact HB | rewrite HF; lra].
  - apply Rmult_le_reg_r with B; [exact HB | rewrite HF; lra].
Qed.

(** Forward difference of [t |-> nom / (a t + b)^2] for a step that moves the
    denominator by at most 1e-5 of its size. *)
Lemma fd_inverse_square (nom a b x h : R) :
  a * x + b <> 0 -> h <> 0 ->
  Rabs (a * h) <= 1e-5 * Rabs (a * x + b) ->
  Rabs ((nom / (a * (x + h) + b) ^ 2 - nom / (a * x + b) ^ 2) / h
        - (- 2 * (nom / (a * x + b) ^ 2) / (a * x + b) * a))
  <= 1e-4 * Rabs (- 2 * (nom / (a * x + b) ^ 2) / (a * x + b) * a).
Proof.
  intros Hd Hh Hstep.
  set (d := a * x + b) in *.
  set (u := a * h / d).
  pose proof (relative_step (a * h) d 1e-5 Hd Hstep) as Hu. fold u in Hu.
  assert (Hd' : a * (x + h) + b = d * (1 + u)).
  { unfold u, d. field. exact Hd. }
  assert (H1u : 1 + u <> 0) by lra.
  assert (Hdu : d + a * h <> 0).
  { replace (d + a * h) with (d * (1 + u)) by (unfold u; field; exact Hd).
    apply Rmult_integral_contrapositive_currified; assumption. }
  rewrite Hd'.
  set (F := - (2 * u ^ 2 + 3 * u) / (2 * (1 + u) ^ 2)).
  replace ((nom / (d * (1 + u)) ^ 2 - nom / d ^ 2) / h
           - - 2 * (nom / d ^ 2) / d * a)
    with (- 2 * (nom / d ^ 2) / d * a * F).
  - rewrite Rabs_mult, Rmult_comm. apply Rmult_le_compat_r; [apply Rabs_pos|].
    apply (small_factor_bound F (- (2 * u ^ 2 + 3 * u)) (2 * (1 + u) ^ 2)).
    + nra.
    + unfold F. field. exact H1u.
    + split; nra.
  - unfold F, u in *. field. repeat split; assumption.
Qed.

(** Forward difference of [t |-> (c - x3 / t) / d] for a relative step of at
    most 1e-5. *)
Lemma fd_equilibrium (c x3 d t h : R) :
  t <> 0 -> d <> 0 -> h <> 0 ->
  Rabs h <= 1e-5 * Rabs t ->
  Rabs (((c - x3 / (t + h)) / d - (c - x3 / t) / d) / h - x3 / (t ^ 2 * d))
  <= 1e-4 * Rabs (x3 / (t ^ 2 * d)).
Proof.
  intros Ht Hd Hh Hstep.
  set (v := h / t).
  pose proof (relative_step h t 1e-5 Ht Hstep) as Hv. fold v in Hv.
  assert (H1v : 1 + v <> 0) by lra.
  assert (Hth : t + h <> 0).
  { replace (t + h) with (t * (1 + v)) by (unfold v; field; exact Ht).
    apply Rmult_integral_contrapositive_currified; assumption. }
  set (F := - v / (1 + v)).
  replace (((c - x3 / (t + h)) / d - (c - x3 / t) / d) / h - x3 / (t ^ 2 * d))
    with (x3 / (t ^ 2 * d) * F).
  - rewrite Rabs_mult, Rmult_comm. apply Rmult_le_compat_r; [apply Rabs_pos|].
    apply (small_factor_bound F (- v) (1 + v)).
    + lra.
    + unfold F. field. exact H1v.
    + split; lra.
  - unfold F, v in *. field. repeat split; assumption.
Qed.

(** Finite-difference fidelity of [M5] wherever the denominator and [Keq] do
    not vanish, for a step that is small against them. *)
Lemma M5_finite_difference (x1 x2 x3 K1 K2 K3 K4 Keq : R) (i : nat) (h : R) :
  K1 + K2 * x2 + K3 * x1 * x2 + K4 * x3 <> 0 -> Keq <> 0 -> h <> 0 ->
  (i < 5)%nat ->
  Rabs (nth i [1; x2; x1 * x2; x3; 0] 0 * h)
    <= 1e-5 * Rabs (K1 + K2 * x2 + K3 * x1 * x2 + K4 * x3) ->
  (i = 4%nat -> Rabs h <= 1e-5 * Rabs Keq) ->
  Rabs (GradientSpec.finite_difference [x1; x2; x3] [K1; K2; K3; K4; Keq] i h
        - jacobian_of (M5 [x1; x2; x3] [K1; K2; K3; K4; Keq] true) i)
  <= 1e-4 * Rabs (jacobian_of (M5 [x1; x2; x3] [K1; K2; K3; K4; Keq] true) i).
Proof.
  intros Hd HK Hh Hi Hstep HstepK.
  set (nom := x1 * x2 ^ 2 - x3 / Keq).
  set (dnm := K1 + K2 * x2 + K3 * x1 * x2 + K4 * x3) in *.
  unfold GradientSpec.finite_difference.
  destruct i as [|[|[|[|[|i]]]]]; [| | | | |lia];
    cbn [M5 replace value_of jacobian_of negb nth get rows] in *;
    fold nom.
  - pose proof (fd_inverse_square nom 1 (K2 * x2 + K3 * x1 * x2 + K4 * x3) K1 h)
      as Hfd.
    replace (1 * K1 + (K2 * x2 + K3 * x1 * x2 + K4 * x3)) with dnm in Hfd
      by (unfold dnm; ring).
    replace (1 * (K1 + h) + (K2 * x2 + K3 * x1 * x2 + K4 * x3))
      with (K1 + h + K2 * x2 + K3 * x1 * x2 + K4 * x3) in Hfd by ring.
    replace (-2 * (nom / dnm ^ 2) / dnm * 1)
      with (-2 * (nom / dnm ^ 2) / dnm) in Hfd by ring.
    apply Hfd; assumption.
  - pose proof (fd_inverse_square nom x2 (K1 + K3 * x1 * x2 + K4 * x3) K2 h)
      as Hfd.
    replace (x2 * K2 + (K1 + K3 * x1 * x2 + K4 * x3)) with dnm in Hfd
      by (unfold dnm; ring).
    replace (x2 * (K2 + h) + (K1 + K3 * x1 * x2 + K4 * x3))
      with (K1 + (K2 + h) * x2 + K3 * x1 * x2 + K4 * x3) in Hfd by ring.
    apply Hfd; assumption.
  - pose proof (fd_inverse_square nom (x1 * x2) (K1 + K2 * x2 + K4 * x3) K3 h)
      as Hfd.
    replace (x1 * x2 * K3 + (K1 + K2 * x2 + K4 * x3)) with dnm in Hfd
      by (unfold dnm; ring).
    replace (x1 * x2 * (K3 + h) + (K1 + K2 * x2 + K4 * x3))
      with (K1 + K2 * x2 + (K3 + h) * x1 * x2 + K4 * x3) in Hfd by ring.
    replace (-2 * (nom / dnm ^ 2) / dnm * (x1 * x2))
      with (-2 * (nom / dnm ^ 2) / dnm * x1 * x2) in Hfd by ring.
    apply Hfd; assumption.
  - pose proof (fd_inverse_square nom x3 (K1 + K2 * x2 + K3 * x1 * x2) K4 h)
      as Hfd.
    replace (x3 * K4 + (K1 + K2 * x2 + K3 * x1 * x2)) with dnm in Hfd
      by (unfold dnm; ring).
    replace (x3 * (K4 + h) + (K1 + K2 * x2 + K3 * x1 * x2))
      with (K1 + K2 * x2 + K3 * x1 * x2 + (K4 + h) * x3) in Hfd by ring.
    apply Hfd; assumption.
  - assert (Hd2 : dnm ^ 2 <> 0) by (apply pow_nonzero; exact Hd).
    pose proof (fd_equilibrium (x1 * x2 ^ 2) x3 (dnm ^ 2) Keq h HK Hd2 Hh
                  (HstepK eq_refl)) as Hfd.
    replace (x3 / (Keq ^ 2 * dnm ^ 2)) with (x3 / (Keq * dnm) ^ 2) in Hfd
      by (field; split; assumption).
    exact Hfd.
Qed.

End GradientFacts.

(** ** The estimator [compute_param_covar] *)

Module CovarianceFacts.
Import Numpy AnalyticMarginal MarginalSpec NumpyFacts EstimatorFacts.

Lemma I_inv_vector_shape (self : Analytic) (X : list (list R)) (var : list R) :
  shape (I_inv_vector self X var)
  = (length (param_mean self), length (param_mean self)).
Proof. reflexivity. Qed.

Lemma I_inv_matrix_shape (self : Analytic) (X : list (list R)) (w : matrix) :
  shape (I_inv_matrix self X w)
  = (length (param_mean self), length (param_mean self)).
Proof. reflexivity. Qed.

Lemma spec_information_shape (self : Analytic) (X : list (list R))
  (noise : noise_model) (iA : matrix) :
  spec_information self X noise = Some iA ->
  shape iA = (length (param_mean self), length (param_mean self)).
Proof.
  destruct noise as [v|var|m]; simpl.
  - intros H. inversion H. reflexivity.
  - intros H. inversion H. reflexivity.
  - destruct (inv m); intros H; inversion H. reflexivity.
Qed.

(** The code assembles the information matrix of the specification. *)
Lemma information_matrix_spec (self : Analytic) (X : list (list R))
  (noise : noise_model) (iA : matrix) :
  X <> [] -> Forall (respects_contract self) X ->
  noise_fits (num_outputs self) noise ->
  spec_information self X noise = Some iA ->
  information_matrix self X noise = Ok iA.
Proof.
  intros Hne Hall Hfits Hspec. destruct noise as [v|var|m]; simpl in *.
  - inversion Hspec; subst.
    apply (information_matrix_vector self X (repeat v (num_outputs self)));
      [assumption | assumption | apply repeat_length].
  - inversion Hspec; subst. apply information_matrix_vector; assumption.
  - destruct (inv m) as [w|e] eqn:Hw; inversion Hspec; subst.
    apply (information_matrix_full self X m w); assumption.
Qed.

Lemma compute_param_covar_spec (self : Analytic) (X : list (list R))
  (noise : noise_model) (iA : matrix) :
  X <> [] -> Forall (respects_contract self) X ->
  noise_fits (num_outputs self) noise ->
  spec_information self X noise = Some iA ->
  compute_param_covar self X noise =
  match inv iA with
  | Ok Sig => (Ok tt, with_Sigma self Sig)
  | Raise e => (Raise e, self)
  end.
Proof.
  intros Hne Hall Hfits Hspec.
  apply compute_param_covar_from.
  - apply information_matrix_spec; assumption.
  - apply (spec_information_shape self X noise). exact Hspec.
Qed.

Lemma inv_raises (A : matrix) (e : exn) : inv A = Raise e -> e = LinAlgError.
Proof.
  unfold inv. destruct (nrow A =? ncol A)%nat.
  - destruct (Req_dec_T _ 0); intros H; inversion H. reflexivity.
  - intros H; inversion H. reflexivity.
Qed.






Lemma setter_accepts (self : Analytic) (A : matrix) :
  shape A = (length (param_mean self), length (param_mean self)) ->
  Sigma_setter self (PyArray2 A) = (Ok tt, with_Sigma self A).
Proof.
  intros H. unfold Sigma_setter. cbn [isinstance_ndarray].
  replace (shape_eqb _ _) with true; [reflexivity|].
  symmetry. apply shape_eqb_eq. exact H.
Qed.

Lemma setter_rejects (self : Analytic) (value : pyobj) :
  (forall A, value = PyArray2 A ->
     shape A <> (length (param_mean self), length (param_mean self))) ->
  Sigma_setter self value = (Raise AssertionError, self).
Proof.
  intros H. unfold Sigma_setter.
  destruct value as [|r|l|v|A|T|c]; try reflexivity.
  cbn [isinstance_ndarray].
  destruct (shape_eqb _ _) eqn:Heq; [|reflexivity].
  apply shape_eqb_eq in Heq. exfalso. exact (H A eq_refl Heq).
Qed.




End CovarianceFacts.

(** ** Test instances *)

Module ExampleFacts.
Import Numpy AnalyticMarginal MarginalSpec NumpyFacts Examples.

(** The inverse of a 1 x 1 array. *)
Lemma inv_1x1 (a : R) :
  a <> 0 -> inv (mkMatrix 1 1 [[a]]) = Ok (mkMatrix 1 1 [[1 / a]]).
Proof.
  intros Ha. unfold inv. cbn [nrow ncol Nat.eqb].
  assert (Hdet : det 1 (get (mkMatrix 1 1 [[a]])) = a).
  { cbn [det big_sum]. unfold get. cbn [rows nth pow]. ring. }
  rewrite Hdet. destruct (Req_dec_T a 0) as [H0|_]; [contradiction|].
  f_equal. unfold tabulate. cbn [seq map Nat.sub Nat.add det pow].
  f_equal. f_equal. f_equal. field. exact Ha.
Qed.

Lemma linear_contract (pm x0 : R) :
  respects_contract (__init__ linear_model [pm]) [x0].
Proof.
  exists [pm * x0], (mkMatrix 1 1 [[x0]]). repeat split.
Qed.

Lemma linear_contract_set (pm x0 : R) (Sig : matrix) :
  respects_contract (with_Sigma (__init__ linear_model [pm]) Sig) [x0].
Proof.
  exists [pm * x0], (mkMatrix 1 1 [[x0]]). repeat split.
Qed.


(** The information matrix of the linear model for one training point [x0]
    and the variance [v] is the number [x0^2 / v]. *)
Lemma linear_information (pm x0 v : R) :
  I_inv_vector (__init__ linear_model [pm]) [[x0]] [v]
  = mkMatrix 1 1 [[1 / v * (x0 * x0)]].
Proof.
  unfold I_inv_vector, tabulate, gram, dmu_of, jacobian, get.
  cbn. f_equal. f_equal. f_equal. ring.
Qed.

(** The inverse of a 2 x 2 array is the familiar one. *)
Lemma inv_2x2 (a b c d : R) :
  a * d - b * c <> 0 ->
  inv (mkMatrix 2 2 [[a; b]; [c; d]]) =
  Ok (mkMatrix 2 2 [[d / (a * d - b * c); - b / (a * d - b * c)];
                    [- c / (a * d - b * c); a / (a * d - b * c)]]).
Proof.
  intros Hdet. unfold inv. cbn [nrow ncol Nat.eqb].
  assert (Heq : det 2 (get (mkMatrix 2 2 [[a; b]; [c; d]])) = a * d - b * c).
  { cbn [det big_sum]. unfold minor, skip, get.
    cbn [rows nth pow Nat.ltb Nat.leb]. ring. }
  rewrite Heq. destruct (Req_dec_T (a * d - b * c) 0) as [H0|_];
    [contradiction|].
  f_equal. unfold tabulate. cbn [seq map Nat.sub Nat.add det big_sum].
  unfold minor, skip, get. cbn [rows nth pow Nat.ltb Nat.leb].
  repeat f_equal; field; exact Hdet.
Qed.

(** No training point: the assertion of [d_mu_d_p] stops the estimator for
    a scalar or a vector of variances, whatever the rest of the input. *)
Lemma compute_param_covar_no_data (self : Analytic) (var : list R) :
  compute_param_covar self [] (NoiseVector var) = (Raise AssertionError, self).
Proof. reflexivity. Qed.

End ExampleFacts.

(** ** Symmetry and shapes of the prediction *)

Module SymmetryFacts.
Import Numpy AnalyticMarginal MarginalSpec NumpyFacts.



Lemma get_floored_diagonal (E : nat) (Sig J : matrix) (e : nat) :
  (e < E)%nat ->
  get (floored E Sig J) e e = Rmax variance_floor (propagate Sig J e e).
Proof.
  intros He. unfold floored. rewrite get_tabulate by assumption.
  rewrite Nat.eqb_refl. reflexivity.
Qed.

Lemma get_floored_off_diagonal (E : nat) (Sig J : matrix) (a b : nat) :
  (a < E)%nat -> (b < E)%nat -> a <> b ->
  get (floored E Sig J) a b = propagate Sig J a b.
Proof.
  intros Ha Hb Hab. unfold floored. rewrite get_tabulate by assumption.
  destruct (Nat.eqb_spec a b); [contradiction | reflexivity].
Qed.

Lemma inv_well_formed (A B : matrix) : inv A = Ok B -> well_formed B.
Proof.
  unfold inv. destruct (nrow A =? ncol A)%nat; [|discriminate].
  destruct (Req_dec_T _ 0); intros H; inversion H.
  apply tabulate_well_formed.
Qed.

Lemma mean_at_length (self : Analytic) (x : list R) :
  respects_contract self x -> length (mean_at self x) = num_outputs self.
Proof.
  intros [y [J [Hcall [Hy _]]]]. unfold mean_at. rewrite Hcall. exact Hy.
Qed.

(** A successful [compute_param_covar] has gone through the setter. *)
Lemma compute_param_covar_stored (self self' : Analytic) (X : list (list R))
  (noise : noise_model) (r : unit) :
  compute_param_covar self X noise = (Ok r, self') ->
  exists Sig,
    self' = with_Sigma self Sig /\
    shape Sig = (length (param_mean self), length (param_mean self)).
Proof.
  unfold compute_param_covar.
  destruct (iA <- information_matrix self X noise ;; inv iA) as [Sig|e];
    [|discriminate].
  unfold Sigma_setter. cbn [isinstance_ndarray].
  destruct (shape_eqb _ _) eqn:Hshape; [|discriminate].
  intros H. inversion H. exists Sig. split; [reflexivity|].
  apply shape_eqb_eq. exact Hshape.
Qed.

End SymmetryFacts.

(** * The claims *)

Import Numpy AnalyticMarginal MarginalSpec NumpyFacts.








(** C4 is not what the code does: each of the three hooks returns the class
    [NotImplementedError] as an ordinary value; nothing is raised. *)
Theorem derivative_hooks_return_the_exception_class
  (self : Analytic) (gp X : pyobj) :
  d2_mu_d_p2 self gp X = Ok (PyExceptionClass NotImplementedError) /\
  d_s2_d_p self gp X = Ok (PyExceptionClass NotImplementedError) /\
  d2_s2_d_p2 self gp X = Ok (PyExceptionClass NotImplementedError).
Proof. repeat split. Qed.

(** C5.  Once a D x D covariance is stored, [__call__] returns for N query
    points a tensor with N slices in which every diagonal entry [S[n,e,e]] is
    [max(1e-15, (J Sigma J^T)[e,e])], hence at least 1e-15. *)
Theorem predicted_variances_are_floored
  (self : Analytic) (xnew : list (list R)) (Sig : matrix) :
  Sigma self = Some Sig ->
  shape Sig = (length (param_mean self), length (param_mean self)) ->
  Forall (respects_contract self) xnew ->
  exists M T,
    __call__ self xnew = Ok (M, T) /\
    length (slices T) = length xnew /\
    forall n e, (n < length xnew)%nat -> (e < num_outputs self)%nat ->
      get (nth n (slices T) (zeros 0 0)) e e
      = Rmax 1e-15 (propagate Sig (jacobian self (nth n xnew [])) e e) /\
      1e-15 <= get (nth n (slices T) (zeros 0 0)) e e.
Proof.
  intros HSig Hshape Hall.
  eexists. eexists. split; [apply PredictFacts.call_result; eassumption|].
  cbn [slices]. split; [apply length_map|].
  intros n e Hn He.
  rewrite (nth_indep _ (zeros 0 0)
             (floored (num_outputs self) Sig (jacobian self [])))
    by (rewrite length_map; exact Hn).
  rewrite (map_nth (fun x => floored (num_outputs self) Sig (jacobian self x))).
  rewrite SymmetryFacts.get_floored_diagonal by exact He.
  split; [reflexivity | apply Rmax_l].
Qed.

Lemma predicted_variances_are_floored_witness :
  let self := with_Sigma (__init__ Examples.linear_model [2])
                (mkMatrix 1 1 [[5]]) in
  exists M T,
    __call__ self [[3]] = Ok (M, T) /\
    1e-15 <= get (nth 0 (slices T) (zeros 0 0)) 0 0.
Proof.
  intros self.
  destruct (predicted_variances_are_floored self [[3]] (mkMatrix 1 1 [[5]]))
    as [M [T [Hcall [_ Hfloor]]]].
  - reflexivity.
  - reflexivity.
  - constructor; [apply ExampleFacts.linear_contract_set | constructor].
  - exists M, T. split; [exact Hcall|].
    apply (Hfloor 0%nat 0%nat); simpl; lia.
Defined.



(** C7.  A scalar noise variance [v] gives the same outcome and the same
    stored covariance as the vector of E entries equal to [v]: both calls
    invert the matrix [(1 / v) * sum over e of dmu[e]^T * dmu[e]]. *)
Theorem scalar_noise_equals_constant_vector
  (self : Analytic) (X : list (list R)) (v : R) :
  compute_param_covar self X (NoiseScalar v)
  = compute_param_covar self X (NoiseVector (repeat v (num_outputs self))) /\
  (X <> [] -> Forall (respects_contract self) X ->
   let iA := I_inv_vector self X (repeat v (num_outputs self)) in
   information_matrix self X (NoiseScalar v) = Ok iA /\
   information_matrix self X (NoiseVector (repeat v (num_outputs self)))
     = Ok iA /\
   forall i j,
     (i < length (param_mean self))%nat -> (j < length (param_mean self))%nat ->
     get iA i j
     = 1 / v * big_sum (num_outputs self)
                 (fun e => gram (dmu_of self X e) (dmu_of self X e) i j)).
Proof.
  split; [reflexivity|].
  intros Hne Hall iA.
  assert (Hvec : information_matrix self X
                   (NoiseVector (repeat v (num_outputs self))) = Ok iA).
  { apply EstimatorFacts.information_matrix_vector;
      [assumption | assumption | apply repeat_length]. }
  split; [exact Hvec | split; [exact Hvec|]].
  intros i j Hi Hj. unfold iA, I_inv_vector.
  rewrite get_tabulate by assumption.
  rewrite <- big_sum_scal. apply big_sum_ext. intros e He.
  rewrite nth_repeat_lt by exact He. reflexivity.
Qed.

Lemma scalar_noise_equals_constant_vector_witness :
  let self := __init__ Examples.linear_model [2] in
  compute_param_covar self [[3]] (NoiseScalar 4)
  = compute_param_covar self [[3]] (NoiseVector [4]) /\
  information_matrix self [[3]] (NoiseScalar 4)
  = Ok (I_inv_vector self [[3]] [4]).
Proof.
  intros self.
  destruct (scalar_noise_equals_constant_vector self [[3]] 4)
    as [Hsame Hformula].
  split; [exact Hsame|].
  apply Hformula.
  - discriminate.
  - constructor; [apply ExampleFacts.linear_contract | constructor].
Defined.

(** C8.  On valid input [compute_param_covar] stores a D x D covariance, and
    whatever it stores is D x D; with a D x D covariance stored, [__call__] on N
    query points returns an N x E array of means and N slices of shape
    E x E; the setter raises [AssertionError] for every value that is not a
    two-dimensional array of shape D x D, and stores every array that is. *)
Theorem shapes_of_covariance_and_prediction (self : Analytic) :
  let E := num_outputs self in
  let D := length (param_mean self) in
  (forall X noise, valid_training self X noise ->
     exists Sig,
       compute_param_covar self X noise = (Ok tt, with_Sigma self Sig) /\
       shape Sig = (D, D) /\ well_formed Sig) /\
  (forall X noise r self',
     compute_param_covar self X noise = (Ok r, self') ->
     exists Sig, Sigma self' = Some Sig /\ shape Sig = (D, D)) /\
  (forall xnew Sig,
     Sigma self = Some Sig -> shape Sig = (D, D) ->
     Forall (respects_contract self) xnew ->
     exists M T,
       __call__ self xnew = Ok (M, T) /\
       shape M = (length xnew, E) /\ well_formed M /\
       (dim0 T, dim1 T, dim2 T) = (length xnew, E, E) /\
       length (slices T) = length xnew /\
       Forall (fun Sn => shape Sn = (E, E) /\ well_formed Sn) (slices T)) /\
  (forall value,
     (forall A, value = PyArray2 A -> shape A <> (D, D)) ->
     Sigma_setter self value = (Raise AssertionError, self)) /\
  (forall A, shape A = (D, D) ->
     Sigma_setter self (PyArray2 A) = (Ok tt, with_Sigma self A)).
Proof.
  intros E D. subst E D. split; [|split; [|split; [|split]]].
  - intros X noise [Hne [Hall [Hfits [iA [Hspec Hdet]]]]].
    pose proof (CovarianceFacts.spec_information_shape self X noise iA Hspec)
      as HiA.
    assert (Hsq : nrow iA = ncol iA) by (unfold shape in HiA; congruence).
    assert (HD : nrow iA = length (param_mean self)) by (unfold shape in HiA; congruence).
    destruct (inv_ok iA Hsq) as [Sig [Hinv HSig]].
    { rewrite HD. exact Hdet. }
    exists Sig.
    rewrite (CovarianceFacts.compute_param_covar_spec self X noise iA
               Hne Hall Hfits Hspec).
    rewrite Hinv. split; [reflexivity|]. split.
    + congruence.
    + apply (SymmetryFacts.inv_well_formed iA). exact Hinv.
  - intros X noise r self' Hcall.
    apply SymmetryFacts.compute_param_covar_stored in Hcall.
    destruct Hcall as [Sig [-> HSig]]. exists Sig. split; [reflexivity|exact HSig].
  - intros xnew Sig HSig Hshape Hall.
    eexists. eexists. split; [apply PredictFacts.call_result; eassumption|].
    split; [reflexivity|]. split.
    { split; cbn [rows nrow ncol].
      - apply length_map.
      - apply Forall_forall. intros row Hrow. apply in_map_iff in Hrow.
        destruct Hrow as [x [<- Hx]]. apply SymmetryFacts.mean_at_length.
        rewrite Forall_forall in Hall. apply Hall. exact Hx. }
    split; [reflexivity|]. split; [apply length_map|].
    cbn [slices]. apply Forall_forall. intros Sn HSn.
    apply in_map_iff in HSn. destruct HSn as [x [<- _]].
    split; [reflexivity | apply tabulate_well_formed].
  - intros value Hvalue. apply CovarianceFacts.setter_rejects. exact Hvalue.
  - intros A HA. apply CovarianceFacts.setter_accepts. exact HA.
Qed.

Lemma shapes_of_covariance_and_prediction_witness :
  let self := __init__ Examples.linear_model [2] in
  (exists Sig,
     compute_param_covar self [[3]] (NoiseVector [4])
       = (Ok tt, with_Sigma self Sig) /\
     shape Sig = (1%nat, 1%nat)) /\
  Sigma_setter self (PyArray2 (zeros 2 2)) = (Raise AssertionError, self) /\
  Sigma_setter self PyNone = (Raise AssertionError, self).
Proof.
  intros self.
  destruct (shapes_of_covariance_and_prediction self)
    as [Hvalid [_ [_ [Hreject _]]]].
  split; [|split].
  - destruct (Hvalid [[3]] (NoiseVector [4])) as [Sig [Hcall [Hshape _]]].
    + split; [discriminate|]. split.
      { constructor; [apply ExampleFacts.linear_contract | constructor]. }
      split; [reflexivity|].
      exists (mkMatrix 1 1 [[1 / 4 * (3 * 3)]]). split.
      * simpl. f_equal. apply ExampleFacts.linear_information.
      * cbn [det big_sum param_mean self __init__ length pow].
        unfold get. cbn [rows nth]. lra.
    + exists Sig. split; assumption.
  - apply Hreject. intros A HA. inversion HA. discriminate.
  - apply Hreject. intros A HA. discriminate HA.
Defined.

(** C9.  At [x = [20, 225, 7]] and [p = [1704, 4.25, 0.241, 444.6, 1.7e-5]]
    the [grad=True] call of [M5] returns the value [y] of the plain call and a
    1 x 5 row whose entry [i] is the partial derivative of [y] with respect to
    the parameter [i]; every entry is matched within the relative tolerance
    1e-4 by every forward difference quotient whose step is at most 1e-6
    times the parameter. *)
Theorem M5_gradient_fidelity :
  (exists y row,
     BFF1983.M5 [20; 225; 7] BFF1983.DataGen_p true
       = Ok ([y], Some (mkMatrix 1 5 [row])) /\
     length row = 5%nat /\
     BFF1983.M5 [20; 225; 7] BFF1983.DataGen_p false = Ok ([y], None)) /\
  GradientSpec.gradient_fidelity [20; 225; 7] BFF1983.DataGen_p 1e-6 1e-4.
Proof.
  split.
  - eexists. eexists. repeat split.
  - intros i Hi. split.
    + apply GradientFacts.M5_gradient_is_derivative; [lra | lra | exact Hi].
    + intros h Hh Hstep.
      apply GradientFacts.M5_finite_difference; try lra; try exact Hi.
      * apply Rabs_le. rewrite (Rabs_pos_eq (1704 + 4.25 * 225 + 0.241 * 20 * 225 + 444.6 * 7))
          by lra.
        apply GradientFacts.Rabs_bounds in Hstep.
        destruct i as [|[|[|[|[|i]]]]]; [| | | | |lia];
          cbn [BFF1983.DataGen_p nth] in Hstep |- *;
          rewrite Rabs_pos_eq in Hstep by lra; lra.
      * intros ->. cbn [BFF1983.DataGen_p nth] in Hstep.
        eapply Rle_trans; [exact Hstep|].
        apply Rmult_le_compat_r; [apply Rabs_pos | lra].
Qed.

(** C10.  After [set_kernels(kern_x, kern_p)] with two kernel classes, the
    property [kern_p] returns the class stored by the setter of [kern_x], not
    the stored [_kern_p], so that both properties return the same class; when
    only the setter of [kern_p] has run, reading [kern_p] is an
    [AttributeError]. *)
Theorem kern_p_returns_kern_x
  (self : VanillaGP.VanillaGPModel) (kx kp : VanillaGP.pyclass) :
  VanillaGP.issubclass_Kern kx = true ->
  VanillaGP.issubclass_Kern kp = true ->
  (exists self',
     VanillaGP.set_kernels self (Some kx) (Some kp) = (Ok tt, self') /\
     VanillaGP._kern_x self' = Some kx /\
     VanillaGP._kern_p self' = Some kp /\
     VanillaGP.kern_p self' = Ok (Some kx) /\
     VanillaGP.kern_p self' = VanillaGP.kern_x self') /\
  (VanillaGP._kern_x self = None ->
   exists self',
     VanillaGP.kern_p_setter self (Some kp) = (Ok tt, self') /\
     VanillaGP.kern_p self' = Raise AttributeError).
Proof.
  intros Hx Hp. split.
  - eexists. unfold VanillaGP.set_kernels, VanillaGP.kern_x_setter.
    rewrite Hx. unfold VanillaGP.kern_p_setter. rewrite Hp.
    repeat split.
  - intros Hunset. eexists. unfold VanillaGP.kern_p_setter. rewrite Hp.
    split; [reflexivity|].
    unfold VanillaGP.kern_p. cbn [VanillaGP._kern_p VanillaGP._kern_x].
    rewrite Hunset. reflexivity.
Qed.

Lemma kern_p_returns_kern_x_witness :
  let self := VanillaGP.mkVanillaGPModel None None in
  (exists self',
     VanillaGP.set_kernels self (Some Examples.RBF) (Some Examples.Matern52)
       = (Ok tt, self') /\
     VanillaGP._kern_p self' = Some Examples.Matern52 /\
     VanillaGP.kern_p self' = Ok (Some Examples.RBF)) /\
  (exists self',
     VanillaGP.kern_p_setter self (Some Examples.Matern52) = (Ok tt, self') /\
     VanillaGP.kern_p self' = Raise AttributeError) /\
  Examples.RBF <> Examples.Matern52.
Proof.
  intros self.
  destruct (kern_p_returns_kern_x self Examples.RBF Examples.Matern52
              eq_refl eq_refl) as [Hboth Honly].
  split; [|split].
  - destruct Hboth as [self' [Hset [_ [Hp [Hget _]]]]].
    exists self'. repeat split; assumption.
  - apply Honly. reflexivity.
  - discriminate.
Defined.

(** * Further properties of the code *)

(** ** The rival models of the case study *)

Module RivalFacts.
Import Numpy BFF1983 BFF1983Rivals GradientFacts.

(** Derivative of [t |-> nom / (a t + b)]. *)
Lemma derivable_pt_lim_inverse (nom a b x : R) :
  a * x + b <> 0 ->
  derivable_pt_lim (fun t => nom / (a * t + b)) x
    (- (nom / (a * x + b)) / (a * x + b) * a).
Proof.
  intros Hd.
  pose (g := fun t : R => a * t + b).
  assert (Hg : derivable_pt_lim g x a) by apply derivable_pt_lim_affine.
  assert (Hc : derivable_pt_lim (fct_cte nom) x 0)
    by apply derivable_pt_lim_const.
  pose proof (derivable_pt_lim_div (fct_cte nom) g x _ _ Hc Hg Hd) as Hdiv.
  eapply derivable_pt_lim_ext; [| |exact Hdiv].
  - intros t. reflexivity.
  - unfold fct_cte, g, Rsqr. field. exact Hd.
Qed.

(** Sums and products of positive numbers are positive. *)
Ltac positive :=
  repeat first
    [ assumption
    | apply Rplus_lt_0_compat
    | apply Rmult_lt_0_compat
    | apply pow_lt
    | apply Rdiv_lt_0_compat
    | lra ].

(** The components of a point of the declared domain. *)
Lemma within_x_bounds (x : list R) :
  within x_bounds x ->
  exists x1 x2 x3,
    x = [x1; x2; x3] /\ 15 <= x1 <= 25 /\ 200 <= x2 <= 250 /\ 5 <= x3 <= 10.
Proof.
  unfold within, x_bounds. intros H.
  inversion H as [|b1 x1 l1 r1 H1 T1]; subst.
  inversion T1 as [|b2 x2 l2 r2 H2 T2]; subst.
  inversion T2 as [|b3 x3 l3 r3 H3 T3]; subst.
  inversion T3; subst.
  exists x1, x2, x3. simpl in *. repeat split; lra.
Qed.

Lemma within_p_bounds (p : list R) :
  within p_bounds p ->
  exists K1 K2 K3 K4 Keq,
    p = [K1; K2; K3; K4; Keq] /\
    1 <= K1 <= 10000 /\ 1e-2 <= K2 <= 10 /\ 1e-4 <= K3 <= 1 /\
    1 <= K4 <= 1000 /\ 1e-10 <= Keq <= 1.
Proof.
  unfold within, p_bounds. intros H.
  inversion H as [|b1 K1 l1 r1 H1 T1]; subst.
  inversion T1 as [|b2 K2 l2 r2 H2 T2]; subst.
  inversion T2 as [|b3 K3 l3 r3 H3 T3]; subst.
  inversion T3 as [|b4 K4 l4 r4 H4 T4]; subst.
  inversion T4 as [|b5 Keq l5 r5 H5 T5]; subst.
  inversion T5; subst.
  exists K1, K2, K3, K4, Keq. simpl in *. repeat split; lra.
Qed.

(** ** M5 *)

Lemma M5_faithful (x1 x2 x3 K1 K2 K3 K4 Keq : R) :
  K1 + K2 * x2 + K3 * x1 * x2 + K4 * x3 <> 0 -> Keq <> 0 ->
  faithful_at M5 [x1; x2; x3] [K1; K2; K3; K4; Keq].
Proof.
  intros Hd HK. eexists. eexists. repeat split.
  intros i Hi. apply M5_gradient_is_derivative; assumption.
Qed.

(** ** M1 *)

Lemma M1_faithful (x1 x2 x3 K1 K2 K3 K4 Keq : R) :
  K1 + K2 * x1 + K3 * x2 + K4 * x3 <> 0 -> Keq <> 0 ->
  faithful_at M1 [x1; x2; x3] [K1; K2; K3; K4; Keq].
Proof.
  intros Hd HK. eexists. eexists. repeat split.
  intros i Hi. unfold partial_derivative.
  set (nom := x1 * x2 ^ 2 - x3 / Keq).
  set (dnm := K1 + K2 * x1 + K3 * x2 + K4 * x3) in Hd.
  destruct i as [|[|[|[|[|i]]]]]; [| | | | |lia];
    cbn [M1 replace value_of jacobian_of negb nth get rows].
  - assert (Hd' : 1 * K1 + (K2 * x1 + K3 * x2 + K4 * x3) <> 0)
      by (replace (1 * K1 + (K2 * x1 + K3 * x2 + K4 * x3)) with dnm
            by (unfold dnm; ring); exact Hd).
    eapply derivable_pt_lim_ext;
      [| |exact (derivable_pt_lim_inverse_square nom 1 _ K1 Hd')].
    + intros t. unfold nom. f_equal. f_equal. ring.
    + unfold nom. field. repeat split; first [exact Hd | exact Hd' | exact HK].
  - assert (Hd' : x1 * K2 + (K1 + K3 * x2 + K4 * x3) <> 0)
      by (replace (x1 * K2 + (K1 + K3 * x2 + K4 * x3)) with dnm
            by (unfold dnm; ring); exact Hd).
    eapply derivable_pt_lim_ext;
      [| |exact (derivable_pt_lim_inverse_square nom x1 _ K2 Hd')].
    + intros t. unfold nom. f_equal. f_equal. ring.
    + unfold nom. field. repeat split; first [exact Hd | exact Hd' | exact HK].
  - assert (Hd' : x2 * K3 + (K1 + K2 * x1 + K4 * x3) <> 0)
      by (replace (x2 * K3 + (K1 + K2 * x1 + K4 * x3)) with dnm
            by (unfold dnm; ring); exact Hd).
    eapply derivable_pt_lim_ext;
      [| |exact (derivable_pt_lim_inverse_square nom x2 _ K3 Hd')].
    + intros t. unfold nom. f_equal. f_equal. ring.
    + unfold nom. field. repeat split; first [exact Hd | exact Hd' | exact HK].
  - assert (Hd' : x3 * K4 + (K1 + K2 * x1 + K3 * x2) <> 0)
      by (replace (x3 * K4 + (K1 + K2 * x1 + K3 * x2)) with dnm
            by (unfold dnm; ring); exact Hd).
    eapply derivable_pt_lim_ext;
      [| |exact (derivable_pt_lim_inverse_square nom x3 _ K4 Hd')].
    + intros t. unfold nom. f_equal. f_equal. ring.
    + unfold nom. field. repeat split; first [exact Hd | exact Hd' | exact HK].
  - assert (Hd2 : dnm ^ 2 <> 0) by (apply pow_nonzero; exact Hd).
    eapply derivable_pt_lim_ext;
      [| |exact (derivable_pt_lim_equilibrium (x1 * x2 ^ 2) x3 _ Keq HK Hd2)].
    + intros t. reflexivity.
    + unfold dnm. field. repeat split; first [exact Hd | exact HK].
Qed.

(** ** M2 *)

Lemma M2_faithful (x1 x2 x3 K1 K2 K3 K4 Keq : R) :
  K1 + K2 * x1 + K3 * x2 + K4 * x1 * x2 <> 0 -> Keq <> 0 ->
  faithful_at M2 [x1; x2; x3] [K1; K2; K3; K4; Keq].
Proof.
  intros Hd HK. eexists. eexists. repeat split.
  intros i Hi. unfold partial_derivative.
  set (nom := x1 * x2 ^ 2 - x3 / Keq).
  set (dnm := K1 + K2 * x1 + K3 * x2 + K4 * x1 * x2) in Hd.
  destruct i as [|[|[|[|[|i]]]]]; [| | | | |lia];
    cbn [M2 replace value_of jacobian_of negb nth get rows].
  - assert (Hd' : 1 * K1 + (K2 * x1 + K3 * x2 + K4 * x1 * x2) <> 0)
      by (replace (1 * K1 + (K2 * x1 + K3 * x2 + K4 * x1 * x2)) with dnm
            by (unfold dnm; ring); exact Hd).
    eapply derivable_pt_lim_ext;
      [| |exact (derivable_pt_lim_inverse nom 1 _ K1 Hd')].
    + intros t. unfold nom. f_equal. ring.
    + unfold nom. field. repeat split; first [exact Hd | exact Hd' | exact HK].
  - assert (Hd' : x1 * K2 + (K1 + K3 * x2 + K4 * x1 * x2) <> 0)
      by (replace (x1 * K2 + (K1 + K3 * x2 + K4 * x1 * x2)) with dnm
            by (unfold dnm; ring); exact Hd).
    eapply derivable_pt_lim_ext;
      [| |exact (derivable_pt_lim_inverse nom x1 _ K2 Hd')].
    + intros t. unfold nom. f_equal. ring.
    + unfold nom. field. repeat split; first [exact Hd | exact Hd' | exact HK].
  - assert (Hd' : x2 * K3 + (K1 + K2 * x1 + K4 * x1 * x2) <> 0)
      by (replace (x2 * K3 + (K1 + K2 * x1 + K4 * x1 * x2)) with dnm
            by (unfold dnm; ring); exact Hd).
    eapply derivable_pt_lim_ext;
      [| |exact (derivable_pt_lim_inverse nom x2 _ K3 Hd')].
    + intros t. unfold nom. f_equal. ring.
    + unfold nom. field. repeat split; first [exact Hd | exact Hd' | exact HK].
  - assert (Hd' : x1 * x2 * K4 + (K1 + K2 * x1 + K3 * x2) <> 0)
      by (replace (x1 * x2 * K4 + (K1 + K2 * x1 + K3 * x2)) with dnm
            by (unfold dnm; ring); exact Hd).
    eapply derivable_pt_lim_ext;
      [| |exact (derivable_pt_lim_inverse nom (x1 * x2) _ K4 Hd')].
    + intros t. unfold nom. f_equal. ring.
    + unfold nom. field. repeat split; first [exact Hd | exact Hd' | exact HK].
  - eapply derivable_pt_lim_ext;
      [| |exact (derivable_pt_lim_equilibrium (x1 * x2 ^ 2) x3 _ Keq HK Hd)].
    + intros t. reflexivity.
    + unfold dnm. field. repeat split; first [exact Hd | exact HK].
Qed.

(** ** M3 *)

Lemma M3_faithful (x1 x2 x3 K1 K2 K3 K4 Keq : R) :
  x2 ^ 2 * (K1 + K2 * x3 + K3 * x2) + K4 * x2 * x3 <> 0 -> Keq <> 0 ->
  faithful_at M3 [x1; x2; x3] [K1; K2; K3; K4; Keq].
Proof.
  intros Hd HK. eexists. eexists. repeat split.
  intros i Hi. unfold partial_derivative.
  set (nom := x1 * x2 ^ 2 - x3 / Keq).
  set (dnm := x2 ^ 2 * (K1 + K2 * x3 + K3 * x2) + K4 * x2 * x3) in Hd.
  assert (Hx2 : x2 <> 0).
  { intros H0. apply Hd. unfold dnm. rewrite H0. ring. }
  destruct i as [|[|[|[|[|i]]]]]; [| | | | |lia];
    cbn [M3 replace value_of jacobian_of negb nth get rows].
  - assert (Hd' : x2 ^ 2 * K1 + (x2 ^ 2 * (K2 * x3 + K3 * x2) + K4 * x2 * x3)
                  <> 0)
      by (replace (x2 ^ 2 * K1 + (x2 ^ 2 * (K2 * x3 + K3 * x2) + K4 * x2 * x3))
            with dnm by (unfold dnm; ring); exact Hd).
    eapply derivable_pt_lim_ext;
      [| |exact (derivable_pt_lim_inverse nom (x2 ^ 2) _ K1 Hd')].
    + intros t. unfold nom. f_equal. ring.
    + unfold nom. field. repeat split; first [exact Hd | exact Hd' | exact HK].
  - assert (Hd' : x2 ^ 2 * x3 * K2 + (x2 ^ 2 * (K1 + K3 * x2) + K4 * x2 * x3)
                  <> 0)
      by (replace (x2 ^ 2 * x3 * K2 + (x2 ^ 2 * (K1 + K3 * x2) + K4 * x2 * x3))
            with dnm by (unfold dnm; ring); exact Hd).
    eapply derivable_pt_lim_ext;
      [| |exact (derivable_pt_lim_inverse nom (x2 ^ 2 * x3) _ K2 Hd')].
    + intros t. unfold nom. f_equal. ring.
    + unfold nom. field. repeat split; first [exact Hd | exact Hd' | exact HK].
  - assert (Hd' : x2 ^ 3 * K3 + (x2 ^ 2 * (K1 + K2 * x3) + K4 * x2 * x3) <> 0)
      by (replace (x2 ^ 3 * K3 + (x2 ^ 2 * (K1 + K2 * x3) + K4 * x2 * x3))
            with dnm by (unfold dnm; ring); exact Hd).
    eapply derivable_pt_lim_ext;
      [| |exact (derivable_pt_lim_inverse nom (x2 ^ 3) _ K3 Hd')].
    + intros t. unfold nom. f_equal. ring.
    + unfold nom. field. repeat split; first [exact Hd | exact Hd' | exact HK].
  - assert (Hd' : x2 * x3 * K4 + x2 ^ 2 * (K1 + K2 * x3 + K3 * x2) <> 0)
      by (replace (x2 * x3 * K4 + x2 ^ 2 * (K1 + K2 * x3 + K3 * x2))
            with dnm by (unfold dnm; ring); exact Hd).
    eapply derivable_pt_lim_ext;
      [| |exact (derivable_pt_lim_inverse nom (x2 * x3) _ K4 Hd')].
    + intros t. unfold nom. f_equal. ring.
    + unfold nom. field.
      repeat split; first [exact Hd | exact Hd' | exact HK | exact Hx2].
  - eapply derivable_pt_lim_ext;
      [| |exact (derivable_pt_lim_equilibrium (x1 * x2 ^ 2) x3 _ Keq HK Hd)].
    + intros t. reflexivity.
    + unfold dnm. field. repeat split; first [exact Hd | exact HK].
Qed.

(** ** M4 *)

Lemma M4_value_form (nom x2 d d' : R) :
  d = d' -> nom / (x2 * d ^ 2) = nom / x2 / d' ^ 2.
Proof.
  intros <-. unfold Rdiv. rewrite Rinv_mult. ring.
Qed.

Lemma M4_faithful (x1 x2 x3 K1 K2 K3 K4 Keq : R) :
  x2 <> 0 -> K1 + K2 * x1 + K3 * (x3 / x2) + K4 * x3 <> 0 -> Keq <> 0 ->
  faithful_at M4 [x1; x2; x3] [K1; K2; K3; K4; Keq].
Proof.
  intros Hx2 Hd HK. eexists. eexists. repeat split.
  intros i Hi. unfold partial_derivative.
  set (nom := x1 * x2 ^ 2 - x3 / Keq).
  set (x32 := x3 / x2) in *.
  set (dnm := K1 + K2 * x1 + K3 * x32 + K4 * x3) in Hd.
  destruct i as [|[|[|[|[|i]]]]]; [| | | | |lia];
    cbn [M4 replace value_of jacobian_of negb nth get rows];
    fold x32; fold nom.
  - assert (Hd' : 1 * K1 + (K2 * x1 + K3 * x32 + K4 * x3) <> 0)
      by (replace (1 * K1 + (K2 * x1 + K3 * x32 + K4 * x3)) with dnm
            by (unfold dnm; ring); exact Hd).
    eapply derivable_pt_lim_ext;
      [| |exact (derivable_pt_lim_inverse_square (nom / x2) 1 _ K1 Hd')].
    + intros t. symmetry. apply M4_value_form. ring.
    + field. repeat split; first [exact Hd | exact Hd' | exact HK | exact Hx2].
  - assert (Hd' : x1 * K2 + (K1 + K3 * x32 + K4 * x3) <> 0)
      by (replace (x1 * K2 + (K1 + K3 * x32 + K4 * x3)) with dnm
            by (unfold dnm; ring); exact Hd).
    eapply derivable_pt_lim_ext;
      [| |exact (derivable_pt_lim_inverse_square (nom / x2) x1 _ K2 Hd')].
    + intros t. symmetry. apply M4_value_form. ring.
    + field. repeat split; first [exact Hd | exact Hd' | exact HK | exact Hx2].
  - assert (Hd' : x32 * K3 + (K1 + K2 * x1 + K4 * x3) <> 0)
      by (replace (x32 * K3 + (K1 + K2 * x1 + K4 * x3)) with dnm
            by (unfold dnm; ring); exact Hd).
    eapply derivable_pt_lim_ext;
      [| |exact (derivable_pt_lim_inverse_square (nom / x2) x32 _ K3 Hd')].
    + intros t. symmetry. apply M4_value_form. ring.
    + field. repeat split; first [exact Hd | exact Hd' | exact HK | exact Hx2].
  - assert (Hd' : x3 * K4 + (K1 + K2 * x1 + K3 * x32) <> 0)
      by (replace (x3 * K4 + (K1 + K2 * x1 + K3 * x32)) with dnm
            by (unfold dnm; ring); exact Hd).
    eapply derivable_pt_lim_ext;
      [| |exact (derivable_pt_lim_inverse_square (nom / x2) x3 _ K4 Hd')].
    + intros t. symmetry. apply M4_value_form. ring.
    + field. repeat split; first [exact Hd | exact Hd' | exact HK | exact Hx2].
  - assert (Hd2 : x2 * dnm ^ 2 <> 0).
    { apply Rmult_integral_contrapositive_currified;
        [exact Hx2 | apply pow_nonzero; exact Hd]. }
    eapply derivable_pt_lim_ext;
      [| |exact (derivable_pt_lim_equilibrium (x1 * x2 ^ 2) x3 _ Keq HK Hd2)].
    + intros t. reflexivity.
    + fold dnm. clearbody dnm. unfold x32. field.
      repeat split; first [exact Hd | exact HK | exact Hx2].
Qed.

End RivalFacts.

(** ** Life cycle, errors and composition of the marginaliser *)

Module LifecycleFacts.
Import Numpy AnalyticMarginal MarginalSpec NumpyFacts MarginalLifecycle.

Lemma setter_outcome (self : Analytic) (value : pyobj) :
  (exists A, value = PyArray2 A /\
     shape A = (length (param_mean self), length (param_mean self)) /\
     Sigma_setter self value = (Ok tt, with_Sigma self A)) \/
  Sigma_setter self value = (Raise AssertionError, self).
Proof.
  unfold Sigma_setter.
  destruct value as [|r|l|v|A|T|c]; try (right; reflexivity).
  cbn [isinstance_ndarray].
  destruct (shape_eqb _ _) eqn:Hshape; [|right; reflexivity].
  left. exists A. apply shape_eqb_eq in Hshape. repeat split. exact Hshape.
Qed.

Lemma compute_outcome (self : Analytic) (X : list (list R))
  (noise : noise_model) :
  (exists Sig,
     shape Sig = (length (param_mean self), length (param_mean self)) /\
     compute_param_covar self X noise = (Ok tt, with_Sigma self Sig)) \/
  (exists e, compute_param_covar self X noise = (Raise e, self)).
Proof.
  unfold compute_param_covar.
  destruct (iA <- information_matrix self X noise ;; inv iA) as [Sig|e].
  - destruct (setter_outcome self (PyArray2 Sig)) as [[A [HA [Hshape Hset]]]|Hset].
    + left. exists A. split; [exact Hshape | exact Hset].
    + right. exists AssertionError. exact Hset.
  - right. exists e. reflexivity.
Qed.

Lemma fits_with_Sigma (self : Analytic) (A : matrix) :
  shape A = (length (param_mean self), length (param_mean self)) ->
  Sigma_fits (with_Sigma self A).
Proof. intros H. exact H. Qed.

End LifecycleFacts.

Import Numpy AnalyticMarginal MarginalSpec NumpyFacts MarginalLifecycle.

(** X1.  Whatever sequence of [Sigma] assignments and [compute_param_covar]
    calls an [Analytic] object goes through, failed ones included, it keeps
    the model and the parameter mean it was built with, and its covariance is
    either unset or D x D; so once a covariance is set, [__call__] returns a
    result at all query points where the model respects its contract. *)
Theorem reachable_invariant
  (model : Model) (pm : list R) (self : Analytic) :
  reachable model pm self ->
  num_outputs self = model_num_outputs model /\
  call self = model_call model /\
  param_mean self = pm /\
  Sigma_fits self /\
  (forall xnew, Sigma self <> None ->
     Forall (respects_contract self) xnew ->
     exists M T, __call__ self xnew = Ok (M, T)).
Proof.
  intros Hreach.
  assert (Hinv : num_outputs self = model_num_outputs model /\
                 call self = model_call model /\
                 param_mean self = pm /\ Sigma_fits self).
  { induction Hreach as [|self value _ IH|self X noise _ IH].
    - repeat split.
    - destruct IH as [HE [Hcall [Hpm Hfit]]].
      destruct (LifecycleFacts.setter_outcome self value)
        as [[A [_ [Hshape ->]]]| ->]; cbn [snd].
      + repeat split; assumption.
      + repeat split; assumption.
    - destruct IH as [HE [Hcall [Hpm Hfit]]].
      destruct (LifecycleFacts.compute_outcome self X noise)
        as [[Sig [Hshape ->]]|[e ->]]; cbn [snd].
      + repeat split; assumption.
      + repeat split; assumption. }
  destruct Hinv as [HE [Hcall [Hpm Hfit]]].
  repeat split; try assumption.
  intros xnew Hset Hall. unfold Sigma_fits in Hfit.
  destruct (Sigma self) as [Sig|] eqn:HSig; [|contradiction].
  eexists. eexists. apply (PredictFacts.call_result self xnew Sig); assumption.
Qed.

Lemma reachable_invariant_witness :
  let self :=
    snd (compute_param_covar (__init__ Examples.linear_model [2]) [[3]]
           (NoiseVector [4])) in
  num_outputs self = 1%nat /\ param_mean self = [2] /\ Sigma_fits self.
Proof.
  intros self.
  destruct (reachable_invariant Examples.linear_model [2] self)
    as [HE [_ [Hpm [Hfit _]]]].
  - unfold self. apply reach_compute. apply reach_init.
  - repeat split; assumption.
Defined.

Module PropagationFacts.
Import Numpy AnalyticMarginal MarginalSpec NumpyFacts MarginalLifecycle.

(** A comprehension raises what its first failing element raises. *)
Lemma comprehension_raises {A B : Type} (f : A -> result B) (g : A -> B)
  (pre post : list A) (x : A) (e : exn) :
  Forall (fun a => f a = Ok (g a)) pre -> f x = Raise e ->
  comprehension f (pre ++ x :: post) = Raise e.
Proof.
  intros Hpre Hx. induction Hpre as [|a pre Ha _ IH]; simpl.
  - rewrite Hx. reflexivity.
  - rewrite Ha. cbn [bind]. rewrite IH. reflexivity.
Qed.

Lemma grad_ok (self : Analytic) (x : list R) :
  respects_contract self x -> grad self x = Ok (jacobian self x).
Proof.
  intros [y [J [Hcall _]]]. unfold grad, jacobian. rewrite Hcall. reflexivity.
Qed.

Lemma d_mu_d_p_raises (self : Analytic) (pre post : list (list R))
  (x : list R) (e : exn) :
  Forall (respects_contract self) pre ->
  call self x (param_mean self) = Raise e ->
  d_mu_d_p self (pre ++ x :: post) = Raise e.
Proof.
  intros Hpre Hx. unfold d_mu_d_p.
  rewrite (comprehension_raises (grad self) (jacobian self) pre post x e).
  - reflexivity.
  - eapply Forall_impl; [|exact Hpre]. intros a Ha. apply grad_ok. exact Ha.
  - unfold grad. rewrite Hx. reflexivity.
Qed.

End PropagationFacts.

(** X2.  [d_mu_d_p] on N >= 1 training points where the model respects its
    contract returns an array of shape (N, E, D) whose slice [n] is the
    Jacobian at the point [n], so that [dmu[:, e]] is the stack of the rows
    [e]; on an empty training set its assertion fails. *)
Theorem d_mu_d_p_stacks_jacobians (self : Analytic) (X : list (list R)) :
  d_mu_d_p self [] = Raise AssertionError /\
  (X <> [] -> Forall (respects_contract self) X ->
   exists dmu,
     d_mu_d_p self X = Ok dmu /\
     (dim0 dmu, dim1 dmu, dim2 dmu)
       = (length X, num_outputs self, length (param_mean self)) /\
     length (slices dmu) = length X /\
     (forall n, (n < length X)%nat ->
        nth n (slices dmu) (zeros 0 0) = jacobian self (nth n X [])) /\
     (forall e, (e < num_outputs self)%nat ->
        take_axis1 dmu e = Ok (dmu_of self X e))).
Proof.
  split; [reflexivity|].
  intros Hne Hall. eexists. split.
  - apply EstimatorFacts.d_mu_d_p_ok; assumption.
  - cbn [dim0 dim1 dim2 slices]. split; [reflexivity|].
    split; [apply length_map|]. split.
    + intros n Hn.
      rewrite (nth_indep _ (zeros 0 0) (jacobian self []))
        by (rewrite length_map; exact Hn).
      apply map_nth.
    + intros e He. apply EstimatorFacts.take_axis1_ok. exact He.
Qed.

Lemma d_mu_d_p_stacks_jacobians_witness :
  let self := __init__ Examples.linear_model [2] in
  exists dmu,
    d_mu_d_p self [[3]; [5]] = Ok dmu /\
    (dim0 dmu, dim1 dmu, dim2 dmu) = (2%nat, 1%nat, 1%nat).
Proof.
  intros self.
  destruct (d_mu_d_p_stacks_jacobians self [[3]; [5]]) as [_ Hstack].
  destruct Hstack as [dmu [Hcall [Hdims _]]].
  - discriminate.
  - repeat constructor; apply ExampleFacts.linear_contract.
  - exists dmu. split; assumption.
Defined.

(** X3.  An exception raised by the model passes through unchanged: when the
    model respects its contract on the points before [x] and raises [e] at
    [x], then [d_mu_d_p] raises [e], [compute_param_covar] with a scalar or a
    vector of variances raises [e] and leaves the object as it was, and
    [__call__] raises [e], whether a covariance is set or not. *)
Theorem model_exception_passes_through
  (self : Analytic) (pre post : list (list R)) (x : list R) (e : exn) :
  Forall (respects_contract self) pre ->
  call self x (param_mean self) = Raise e ->
  d_mu_d_p self (pre ++ x :: post) = Raise e /\
  (forall v, compute_param_covar self (pre ++ x :: post) (NoiseScalar v)
             = (Raise e, self)) /\
  (forall var, compute_param_covar self (pre ++ x :: post) (NoiseVector var)
               = (Raise e, self)) /\
  __call__ self (pre ++ x :: post) = Raise e.
Proof.
  intros Hpre Hx.
  pose proof (PropagationFacts.d_mu_d_p_raises self pre post x e Hpre Hx)
    as Hdmu.
  split; [exact Hdmu|].
  assert (Hvec : forall var,
            compute_param_covar self (pre ++ x :: post) (NoiseVector var)
            = (Raise e, self)).
  { intros var. unfold compute_param_covar, information_matrix.
    cbn [bind]. rewrite Hdmu. reflexivity. }
  split; [intros v; apply Hvec|]. split; [exact Hvec|].
  unfold __call__.
  rewrite (PropagationFacts.comprehension_raises _
             (fun a => (mean_at self a,
                        tabulate (num_outputs self) (length (param_mean self))
                          (get (jacobian self a)))) pre post x e).
  - reflexivity.
  - eapply Forall_impl; [|exact Hpre].
    intros a [y [J [Hcall [Hy HJ]]]].
    unfold mean_at, jacobian. rewrite Hcall. cbn [bind fst snd].
    rewrite store_row_ok by exact Hy. cbn [bind].
    rewrite store_matrix_ok by exact HJ. reflexivity.
  - rewrite Hx. reflexivity.
Qed.

Lemma model_exception_passes_through_witness :
  let self := __init__ Examples.linear_model [2] in
  d_mu_d_p self [[3]; [4; 5]; [6]] = Raise ValueError /\
  __call__ self [[3]; [4; 5]; [6]] = Raise ValueError.
Proof.
  intros self.
  destruct (model_exception_passes_through self [[3]] [[6]] [4; 5] ValueError)
    as [Hdmu [_ [_ Hcall]]].
  - repeat constructor. apply ExampleFacts.linear_contract.
  - reflexivity.
  - split; assumption.
Defined.

Module NoiseLengthFacts.
Import Numpy AnalyticMarginal MarginalSpec NumpyFacts EstimatorFacts.

(** The body of the outer loop on the vector path, for weights of any
    size [L] that reaches the output [e1]. *)
Lemma output_terms_vector_sized (self : Analytic) (X : list (list R))
  (w : matrix) (G : nat -> nat -> R) (e1 : nat) :
  (e1 < nrow w)%nat -> (e1 < ncol w)%nat -> (e1 < num_outputs self)%nat ->
  output_terms true w
    (mkTensor (length X) (num_outputs self) (length (param_mean self))
       (map (jacobian self) X))
    (num_outputs self) (tabulate (length (param_mean self))
                          (length (param_mean self)) G) e1 =
  Ok (tabulate (length (param_mean self)) (length (param_mean self))
        (fun i j =>
           G i j
           + get w e1 e1 * gram (dmu_of self X e1) (dmu_of self X e1) i j)).
Proof.
  intros Hr Hc He. unfold output_terms.
  rewrite take_axis1_ok by exact He. cbn [bind].
  rewrite getitem_ok by assumption. cbn [bind].
  pose proof (add_gram (length (param_mean self)) G (get w e1 e1)
                (dmu_of self X e1) (dmu_of self X e1)
                eq_refl eq_refl eq_refl) as Hstep.
  unfold bind in Hstep |- *.
  destruct (matmul _ _) as [P|err]; [|discriminate].
  rewrite Hstep. reflexivity.
Qed.

(** The same body at the first output that the weights do not reach. *)
Lemma output_terms_out_of_range (self : Analytic) (X : list (list R))
  (var : list R) (iA : matrix) :
  (length var < num_outputs self)%nat ->
  output_terms true (diag (map (fun s => 1 / s) var))
    (mkTensor (length X) (num_outputs self) (length (param_mean self))
       (map (jacobian self) X))
    (num_outputs self) iA (length var) = Raise IndexError.
Proof.
  intros Hlt. unfold output_terms.
  rewrite take_axis1_ok by exact Hlt. cbn [bind].
  unfold getitem, diag. cbn [nrow ncol tabulate]. rewrite length_map.
  rewrite Nat.ltb_irrefl. reflexivity.
Qed.

Lemma loop_prefix (self : Analytic) (X : list (list R)) (var : list R)
  (k : nat) :
  (k <= length var)%nat -> (k <= num_outputs self)%nat ->
  for_each (seq 0 k)
    (output_terms true (diag (map (fun s => 1 / s) var))
       (mkTensor (length X) (num_outputs self) (length (param_mean self))
          (map (jacobian self) X))
       (num_outputs self))
    (zeros (length (param_mean self)) (length (param_mean self))) =
  Ok (tabulate (length (param_mean self)) (length (param_mean self))
        (fun i j =>
           big_sum k
             (fun e => 1 / nth e var 0
                       * gram (dmu_of self X e) (dmu_of self X e) i j))).
Proof.
  intros Hk HE. unfold zeros.
  rewrite (for_each_accumulate (length (param_mean self))
             (fun e i j =>
                get (diag (map (fun s => 1 / s) var)) e e
                * gram (dmu_of self X e) (dmu_of self X e) i j)).
  - f_equal. apply tabulate_ext. intros i j _ _.
    rewrite Rplus_0_l. apply big_sum_ext. intros e He.
    rewrite Nat.add_0_l. rewrite get_diag_inverse by lia. reflexivity.
  - intros e G He. apply output_terms_vector_sized.
    + unfold diag. cbn [nrow tabulate]. rewrite length_map. lia.
    + unfold diag. cbn [ncol tabulate]. rewrite length_map. lia.
    + lia.
Qed.

End NoiseLengthFacts.

(** X4.  The vector of variances is read at the indices [0 .. E-1] only.  On
    a non-empty training set where the model respects its contract: a vector
    with fewer than E entries makes [compute_param_covar] raise [IndexError]
    and leaves the object as it was; a vector with more than E entries is
    accepted, and the entries from index E on have no effect. *)
Theorem noise_vector_length
  (self : Analytic) (X : list (list R)) (var : list R) :
  X <> [] -> Forall (respects_contract self) X ->
  ((length var < num_outputs self)%nat ->
   compute_param_covar self X (NoiseVector var) = (Raise IndexError, self)) /\
  ((num_outputs self <= length var)%nat ->
   information_matrix self X (NoiseVector var) = Ok (I_inv_vector self X var) /\
   compute_param_covar self X (NoiseVector var)
   = compute_param_covar self X
       (NoiseVector (firstn (num_outputs self) var))).
Proof.
  intros Hne Hall.
  assert (Hlong : forall v, (num_outputs self <= length v)%nat ->
            information_matrix self X (NoiseVector v)
            = Ok (I_inv_vector self X v)).
  { intros v Hv. unfold information_matrix. cbn [bind ndim_is_1].
    rewrite EstimatorFacts.d_mu_d_p_ok by assumption. cbn [bind].
    unfold range. rewrite Nat.sub_0_r.
    apply NoiseLengthFacts.loop_prefix; [exact Hv | apply Nat.le_refl]. }
  split.
  - intros Hshort. unfold compute_param_covar, information_matrix.
    cbn [bind ndim_is_1].
    rewrite EstimatorFacts.d_mu_d_p_ok by assumption. cbn [bind].
    unfold range. rewrite Nat.sub_0_r.
    assert (Hseq : seq 0 (num_outputs self)
                   = seq 0 (length var)
                     ++ length var
                        :: seq (S (length var))
                             (num_outputs self - length var - 1)).
    { replace (num_outputs self)
        with (length var + S (num_outputs self - length var - 1))%nat at 1
        by lia.
      rewrite seq_app. reflexivity. }
    rewrite Hseq, for_each_app.
    rewrite NoiseLengthFacts.loop_prefix by lia. cbn [bind for_each].
    rewrite NoiseLengthFacts.output_terms_out_of_range by exact Hshort.
    reflexivity.
  - intros Hlen. split; [apply Hlong; exact Hlen|].
    unfold compute_param_covar.
    rewrite (Hlong var Hlen).
    rewrite (Hlong (firstn (num_outputs self) var))
      by (rewrite length_firstn; lia).
    replace (I_inv_vector self X (firstn (num_outputs self) var))
      with (I_inv_vector self X var); [reflexivity|].
    unfold I_inv_vector. apply tabulate_ext. intros i j _ _.
    apply big_sum_ext. intros e He.
    rewrite nth_firstn. apply Nat.ltb_lt in He. rewrite He. reflexivity.
Qed.

Lemma noise_vector_length_witness :
  let self := __init__ Examples.linear_model [2] in
  compute_param_covar self [[3]] (NoiseVector []) = (Raise IndexError, self) /\
  compute_param_covar self [[3]] (NoiseVector [4; 7])
  = compute_param_covar self [[3]] (NoiseVector [4]).
Proof.
  intros self.
  destruct (noise_vector_length self [[3]] []) as [Hshort _].
  { discriminate. }
  { repeat constructor. apply ExampleFacts.linear_contract. }
  destruct (noise_vector_length self [[3]] [4; 7]) as [_ Hlong].
  { discriminate. }
  { repeat constructor. apply ExampleFacts.linear_contract. }
  split.
  - apply Hshort. simpl. lia.
  - apply Hlong. simpl. lia.
Defined.

(** X5.  [compute_param_covar] does not read the stored covariance: on an
    object that already holds a covariance the outcome is the same as on the
    object without it, a success replaces the old covariance by the same new
    one and a failure keeps the old one; in particular repeating a call gives
    the outcome and the object of the first call. *)
Theorem re_estimation_overwrites
  (self : Analytic) (old : matrix) (X : list (list R)) (noise : noise_model) :
  fst (compute_param_covar (with_Sigma self old) X noise)
    = fst (compute_param_covar self X noise) /\
  (forall r self', compute_param_covar self X noise = (Ok r, self') ->
     compute_param_covar (with_Sigma self old) X noise = (Ok r, self')) /\
  (forall e, fst (compute_param_covar self X noise) = Raise e ->
     compute_param_covar (with_Sigma self old) X noise
     = (Raise e, with_Sigma self old)) /\
  compute_param_covar (snd (compute_param_covar self X noise)) X noise
    = compute_param_covar self X noise.
Proof.
  assert (Hsame : forall A,
            information_matrix (with_Sigma self A) X noise
            = information_matrix self X noise) by reflexivity.
  assert (Hcases : forall A,
            (exists Sig,
               compute_param_covar self X noise = (Ok tt, with_Sigma self Sig) /\
               compute_param_covar (with_Sigma self A) X noise
               = (Ok tt, with_Sigma self Sig)) \/
            (exists e,
               compute_param_covar self X noise = (Raise e, self) /\
               compute_param_covar (with_Sigma self A) X noise
               = (Raise e, with_Sigma self A))).
  { intros A. unfold compute_param_covar. rewrite Hsame.
    destruct (iA <- information_matrix self X noise ;; inv iA) as [Sig|e].
    - destruct (LifecycleFacts.setter_outcome self (PyArray2 Sig))
        as [[B [HB [Hshape Hset]]]|Hset].
      + left. exists B. split; [exact Hset|].
        inversion HB; subst B.
        apply (CovarianceFacts.setter_accepts (with_Sigma self A) Sig).
        exact Hshape.
      + right. exists AssertionError. split; [exact Hset|].
        apply CovarianceFacts.setter_rejects. intros B HB Hshape.
        inversion HB; subst B.
        rewrite (CovarianceFacts.setter_accepts self Sig Hshape) in Hset.
        discriminate Hset.
    - right. exists e. split; reflexivity. }
  split; [|split; [|split]].
  - destruct (Hcases old) as [[Sig [H1 H2]]|[e [H1 H2]]];
      rewrite H1, H2; reflexivity.
  - intros r self' Hok.
    destruct (Hcases old) as [[Sig [H1 H2]]|[e [H1 H2]]].
    + rewrite H2. rewrite <- H1. exact Hok.
    + rewrite H1 in Hok. discriminate Hok.
  - intros e He.
    destruct (Hcases old) as [[Sig [H1 H2]]|[e' [H1 H2]]].
    + rewrite H1 in He. discriminate He.
    + rewrite H1 in He. cbn [fst] in He. inversion He; subst e'. exact H2.
  - destruct (LifecycleFacts.compute_outcome self X noise)
      as [[Sig [Hshape Hok]]|[e Herr]].
    + rewrite Hok. cbn [snd].
      destruct (Hcases Sig) as [[Sig' [H1 H2]]|[e [H1 H2]]].
      * rewrite H2. rewrite <- H1. exact Hok.
      * rewrite H1 in Hok. discriminate Hok.
    + rewrite Herr. cbn [snd]. exact Herr.
Qed.

Module AccumulationFacts.
Import Numpy AnalyticMarginal MarginalSpec NumpyFacts MarginalLifecycle.

Lemma big_sum_split (n m : nat) (f : nat -> R) :
  big_sum (n + m) f = big_sum n f + big_sum m (fun k => f (n + k)%nat).
Proof.
  induction m as [|m IH].
  - rewrite Nat.add_0_r. simpl. lra.
  - rewrite Nat.add_succ_r. cbn [big_sum]. rewrite IH. lra.
Qed.

Lemma gram_app (self : Analytic) (X Y : list (list R)) (e i j : nat) :
  (i < length (param_mean self))%nat -> (j < length (param_mean self))%nat ->
  gram (dmu_of self (X ++ Y) e) (dmu_of self (X ++ Y) e) i j =
  gram (dmu_of self X e) (dmu_of self X e) i j
  + gram (dmu_of self Y e) (dmu_of self Y e) i j.
Proof.
  intros Hi Hj. unfold gram, dmu_of. cbn [nrow tabulate].
  rewrite length_app, big_sum_split. f_equal.
  - apply big_sum_ext. intros n Hn.
    fold (tabulate (length (X ++ Y)) (length (param_mean self))
            (fun n d => get (jacobian self (nth n (X ++ Y) [])) e d)).
    fold (tabulate (length X) (length (param_mean self))
            (fun n d => get (jacobian self (nth n X [])) e d)).
    rewrite !get_tabulate by (try rewrite length_app; lia).
    rewrite app_nth1 by exact Hn. reflexivity.
  - apply big_sum_ext. intros n Hn.
    fold (tabulate (length (X ++ Y)) (length (param_mean self))
            (fun n d => get (jacobian self (nth n (X ++ Y) [])) e d)).
    fold (tabulate (length Y) (length (param_mean self))
            (fun n d => get (jacobian self (nth n Y [])) e d)).
    rewrite !get_tabulate by (try rewrite length_app; lia).
    rewrite app_nth2 by lia.
    replace (length X + n - length X)%nat with n by lia. reflexivity.
Qed.

Lemma I_inv_vector_app (self : Analytic) (X Y : list (list R)) (var : list R) :
  I_inv_vector self (X ++ Y) var =
  add_entries (length (param_mean self))
    (I_inv_vector self X var) (I_inv_vector self Y var).
Proof.
  unfold add_entries, I_inv_vector. apply tabulate_ext. intros i j Hi Hj.
  rewrite !get_tabulate by assumption.
  rewrite <- big_sum_plus. apply big_sum_ext. intros e He.
  rewrite gram_app by assumption. ring.
Qed.

End AccumulationFacts.

(** X6.  Information adds up over training points: for a vector of E
    variances, the matrix that [compute_param_covar] inverts for the training
    set [X ++ Y] is the entrywise sum of the matrices it inverts for [X] and
    for [Y]. *)
Theorem information_adds_up
  (self : Analytic) (X Y : list (list R)) (var : list R) :
  X <> [] -> Y <> [] ->
  Forall (respects_contract self) X -> Forall (respects_contract self) Y ->
  length var = num_outputs self ->
  exists A B,
    information_matrix self X (NoiseVector var) = Ok A /\
    information_matrix self Y (NoiseVector var) = Ok B /\
    information_matrix self (X ++ Y) (NoiseVector var)
    = Ok (add_entries (length (param_mean self)) A B).
Proof.
  intros HX HY HallX HallY Hlen.
  exists (I_inv_vector self X var), (I_inv_vector self Y var).
  split; [apply EstimatorFacts.information_matrix_vector; assumption|].
  split; [apply EstimatorFacts.information_matrix_vector; assumption|].
  rewrite <- AccumulationFacts.I_inv_vector_app.
  apply EstimatorFacts.information_matrix_vector.
  - destruct X; [contradiction | discriminate].
  - apply Forall_app. split; assumption.
  - exact Hlen.
Qed.

Lemma information_adds_up_witness :
  let self := __init__ Examples.linear_model [2] in
  exists A B,
    information_matrix self [[3]] (NoiseVector [4]) = Ok A /\
    information_matrix self [[5]] (NoiseVector [4]) = Ok B /\
    information_matrix self [[3]; [5]] (NoiseVector [4])
    = Ok (add_entries 1 A B).
Proof.
  intros self.
  apply (information_adds_up self [[3]] [[5]] [4]).
  - discriminate.
  - discriminate.
  - repeat constructor. apply ExampleFacts.linear_contract.
  - repeat constructor. apply ExampleFacts.linear_contract.
  - reflexivity.
Defined.

Module OneParameterFacts.
Import Numpy AnalyticMarginal MarginalSpec NumpyFacts MarginalLifecycle.

Lemma I_inv_vector_one_parameter (self : Analytic) (X : list (list R))
  (var : list R) :
  length (param_mean self) = 1%nat ->
  I_inv_vector self X var = mkMatrix 1 1 [[information_1 self X var]].
Proof.
  intros HD. unfold I_inv_vector. rewrite HD.
  unfold tabulate. cbn [seq map]. f_equal. f_equal. f_equal.
  unfold information_1. apply big_sum_ext. intros e He. f_equal.
  unfold gram, dmu_of. rewrite HD. cbn [nrow tabulate].
  apply big_sum_ext. intros n Hn.
  fold (tabulate (length X) 1
          (fun n d => get (jacobian self (nth n X [])) e d)).
  rewrite get_tabulate by lia. reflexivity.
Qed.

Lemma information_1_app (self : Analytic) (X Y : list (list R)) (var : list R) :
  information_1 self (X ++ Y) var
  = information_1 self X var + information_1 self Y var.
Proof.
  unfold information_1. rewrite <- big_sum_plus.
  apply big_sum_ext. intros e He.
  rewrite length_app, AccumulationFacts.big_sum_split.
  rewrite (big_sum_ext (length X) _
             (fun n => get (jacobian self (nth n X [])) e 0
                       * get (jacobian self (nth n X [])) e 0))
    by (intros n Hn; rewrite app_nth1 by exact Hn; reflexivity).
  rewrite (big_sum_ext (length Y) _
             (fun n => get (jacobian self (nth n Y [])) e 0
                       * get (jacobian self (nth n Y [])) e 0)).
  - ring.
  - intros n Hn. rewrite app_nth2 by lia.
    replace (length X + n - length X)%nat with n by lia. reflexivity.
Qed.

Lemma big_sum_nonneg (n : nat) (f : nat -> R) :
  (forall k, (k < n)%nat -> 0 <= f k) -> 0 <= big_sum n f.
Proof.
  induction n as [|n IH]; intros H; simpl.
  - lra.
  - assert (0 <= big_sum n f) by (apply IH; intros k Hk; apply H; lia).
    assert (0 <= f n) by (apply H; lia). lra.
Qed.

Lemma information_1_nonneg (self : Analytic) (X : list (list R)) (var : list R) :
  (forall e, (e < num_outputs self)%nat -> 0 < nth e var 0) ->
  0 <= information_1 self X var.
Proof.
  intros Hvar. unfold information_1. apply big_sum_nonneg. intros e He.
  apply Rmult_le_pos.
  - apply Rlt_le. apply Rdiv_lt_0_compat; [lra | apply Hvar; exact He].
  - apply big_sum_nonneg. intros n _. apply Rle_0_sqr.
Qed.

Lemma one_parameter_estimate (self : Analytic) (X : list (list R))
  (var : list R) :
  length (param_mean self) = 1%nat ->
  X <> [] -> Forall (respects_contract self) X ->
  length var = num_outputs self ->
  information_1 self X var <> 0 ->
  compute_param_covar self X (NoiseVector var) =
  (Ok tt, with_Sigma self (mkMatrix 1 1 [[1 / information_1 self X var]])).
Proof.
  intros HD Hne Hall Hlen Hinfo.
  rewrite (CovarianceFacts.compute_param_covar_spec self X (NoiseVector var)
             (I_inv_vector self X var) Hne Hall Hlen eq_refl).
  rewrite I_inv_vector_one_parameter by exact HD.
  rewrite ExampleFacts.inv_1x1 by exact Hinfo. reflexivity.
Qed.

(** The propagated variance of output [e] for a single parameter. *)
Lemma propagate_one_parameter (s : R) (J : matrix) (e : nat) :
  ncol J = 1%nat ->
  propagate (mkMatrix 1 1 [[s]]) J e e = s * (get J e 0 * get J e 0).
Proof.
  intros HJ. unfold propagate. rewrite HJ. cbn [big_sum].
  unfold get at 2. cbn [rows nth]. ring.
Qed.

End OneParameterFacts.

Import MarginalLifecycle.

(** X7.  For a model with a single parameter, a non-empty training set and
    a vector of E variances, [compute_param_covar] stores the 1 x 1
    covariance [1 / (sum over e of (1 / var_e) * sum over n of J_n[e,0]^2)]
    whenever that sum is not zero. *)
Theorem one_parameter_covariance
  (self : Analytic) (X : list (list R)) (var : list R) :
  length (param_mean self) = 1%nat ->
  X <> [] -> Forall (respects_contract self) X ->
  length var = num_outputs self ->
  information_1 self X var <> 0 ->
  compute_param_covar self X (NoiseVector var) =
  (Ok tt, with_Sigma self (mkMatrix 1 1 [[1 / information_1 self X var]])).
Proof. apply OneParameterFacts.one_parameter_estimate. Qed.

Lemma one_parameter_covariance_witness :
  let self := __init__ Examples.linear_model [2] in
  compute_param_covar self [[3]; [5]] (NoiseVector [4]) =
  (Ok tt, with_Sigma self
            (mkMatrix 1 1 [[1 / information_1 self [[3]; [5]] [4]]])).
Proof.
  intros self.
  apply (one_parameter_covariance self [[3]; [5]] [4]).
  - reflexivity.
  - discriminate.
  - repeat constructor; apply ExampleFacts.linear_contract.
  - reflexivity.
  - unfold information_1, MarginalSpec.jacobian, get. cbn. lra.
Defined.

(** X8.  More data, less variance: for a model with a single parameter and
    positive noise variances, estimating from [X ++ Y] instead of [X] stores a
    covariance that is positive and not larger, and every variance that
    [__call__] then predicts is not larger either. *)
Theorem more_data_less_variance
  (self : Analytic) (X Y xnew : list (list R)) (var : list R) :
  length (param_mean self) = 1%nat ->
  X <> [] ->
  Forall (respects_contract self) X -> Forall (respects_contract self) Y ->
  Forall (respects_contract self) xnew ->
  length var = num_outputs self ->
  (forall e, (e < num_outputs self)%nat -> 0 < nth e var 0) ->
  information_1 self X var <> 0 ->
  exists s s' M T M' T',
    compute_param_covar self X (NoiseVector var)
      = (Ok tt, with_Sigma self (mkMatrix 1 1 [[s]])) /\
    compute_param_covar self (X ++ Y) (NoiseVector var)
      = (Ok tt, with_Sigma self (mkMatrix 1 1 [[s']])) /\
    0 < s' <= s /\
    __call__ (with_Sigma self (mkMatrix 1 1 [[s]])) xnew = Ok (M, T) /\
    __call__ (with_Sigma self (mkMatrix 1 1 [[s']])) xnew = Ok (M', T') /\
    M' = M /\
    forall n e, (n < length xnew)%nat -> (e < num_outputs self)%nat ->
      get (nth n (slices T') (zeros 0 0)) e e
      <= get (nth n (slices T) (zeros 0 0)) e e.
Proof.
  intros HD Hne HallX HallY Hallnew Hlen Hvar Hinfo.
  pose proof (OneParameterFacts.information_1_nonneg self X var Hvar) as HX0.
  pose proof (OneParameterFacts.information_1_nonneg self Y var Hvar) as HY0.
  pose proof (OneParameterFacts.information_1_app self X Y var) as Happ.
  set (a := information_1 self X var) in *.
  set (b := information_1 self Y var) in *.
  assert (Ha : 0 < a) by lra.
  assert (Hs : 0 < 1 / (a + b) <= 1 / a).
  { split.
    - apply Rdiv_lt_0_compat; lra.
    - unfold Rdiv. rewrite !Rmult_1_l. apply Rinv_le_contravar; lra. }
  exists (1 / a), (1 / (a + b)).
  eexists. eexists. eexists. eexists.
  split; [apply OneParameterFacts.one_parameter_estimate; assumption|].
  split.
  { rewrite <- Happ. apply OneParameterFacts.one_parameter_estimate.
    - exact HD.
    - destruct X; [contradiction | discriminate].
    - apply Forall_app. split; assumption.
    - exact Hlen.
    - rewrite Happ. lra. }
  split; [exact Hs|].
  split.
  { apply (PredictFacts.call_result
             (with_Sigma self (mkMatrix 1 1 [[1 / a]])) xnew
             (mkMatrix 1 1 [[1 / a]])).
    - reflexivity.
    - cbn [param_mean with_Sigma]. rewrite HD. reflexivity.
    - exact Hallnew. }
  split.
  { apply (PredictFacts.call_result
             (with_Sigma self (mkMatrix 1 1 [[1 / (a + b)]])) xnew
             (mkMatrix 1 1 [[1 / (a + b)]])).
    - reflexivity.
    - cbn [param_mean with_Sigma]. rewrite HD. reflexivity.
    - exact Hallnew. }
  split; [reflexivity|].
  intros n e Hn He. cbn [slices num_outputs with_Sigma].
  rewrite !(nth_indep _ (zeros 0 0)
              (floored (num_outputs self) (mkMatrix 1 1 [[0]])
                 (MarginalSpec.jacobian self [])))
    by (rewrite length_map; exact Hn).
  set (J := MarginalSpec.jacobian self (nth n xnew [])).
  assert (HJ : ncol J = 1%nat).
  { assert (Hin : respects_contract self (nth n xnew [])).
    { rewrite Forall_forall in Hallnew. apply Hallnew. apply nth_In. exact Hn. }
    apply EstimatorFacts.jacobian_shape in Hin. unfold shape in Hin.
    fold J in Hin. congruence. }
  assert (Hnth : forall s,
            nth n (map (fun x => floored (num_outputs self) (mkMatrix 1 1 [[s]])
                                   (MarginalSpec.jacobian
                                      (with_Sigma self (mkMatrix 1 1 [[s]])) x))
                     xnew)
              (floored (num_outputs self) (mkMatrix 1 1 [[0]])
                 (MarginalSpec.jacobian self []))
            = floored (num_outputs self) (mkMatrix 1 1 [[s]]) J).
  { intros s.
    rewrite (nth_indep _ _
               (floored (num_outputs self) (mkMatrix 1 1 [[s]])
                  (MarginalSpec.jacobian
                     (with_Sigma self (mkMatrix 1 1 [[s]])) [])))
      by (rewrite length_map; exact Hn).
    rewrite (map_nth (fun x => floored (num_outputs self) (mkMatrix 1 1 [[s]])
                                 (MarginalSpec.jacobian
                                    (with_Sigma self (mkMatrix 1 1 [[s]])) x))).
    reflexivity. }
  rewrite !Hnth.
  rewrite !SymmetryFacts.get_floored_diagonal by exact He.
  rewrite !OneParameterFacts.propagate_one_parameter by exact HJ.
  apply Rle_max_compat_l.
  apply Rmult_le_compat_r; [apply Rle_0_sqr | lra].
Qed.

Lemma more_data_less_variance_witness :
  let self := __init__ Examples.linear_model [2] in
  exists s s',
    compute_param_covar self [[3]] (NoiseVector [4])
      = (Ok tt, with_Sigma self (mkMatrix 1 1 [[s]])) /\
    compute_param_covar self [[3]; [5]] (NoiseVector [4])
      = (Ok tt, with_Sigma self (mkMatrix 1 1 [[s']])) /\
    0 < s' <= s.
Proof.
  intros self.
  destruct (more_data_less_variance self [[3]] [[5]] [[7]] [4])
    as [s [s' [M [T [M' [T' [H1 [H2 [H3 _]]]]]]]]].
  - reflexivity.
  - discriminate.
  - repeat constructor; apply ExampleFacts.linear_contract.
  - repeat constructor; apply ExampleFacts.linear_contract.
  - repeat constructor; apply ExampleFacts.linear_contract.
  - reflexivity.
  - intros e He. simpl in He. assert (e = 0%nat) by lia. subst. simpl. lra.
  - unfold information_1, MarginalSpec.jacobian, get. cbn. lra.
  - exists s, s'. repeat split; try assumption; apply H3.
Defined.

(** X9.  The predicted mean is the value of the model at the parameter mean
    and does not depend on the covariance; off the diagonal, the predicted
    covariance is exactly [J Sigma J^T]: only diagonal entries are floored. *)
Theorem prediction_mean_and_cross_terms
  (self : Analytic) (xnew : list (list R)) (Sig : matrix) :
  Sigma self = Some Sig ->
  shape Sig = (length (param_mean self), length (param_mean self)) ->
  Forall (respects_contract self) xnew ->
  exists M T,
    __call__ self xnew = Ok (M, T) /\
    rows M = map (mean_at self) xnew /\
    (forall Sig', shape Sig' = shape Sig ->
       exists T', __call__ (with_Sigma self Sig') xnew = Ok (M, T')) /\
    forall n a b,
      (n < length xnew)%nat ->
      (a < num_outputs self)%nat -> (b < num_outputs self)%nat -> a <> b ->
      get (nth n (slices T) (zeros 0 0)) a b
      = propagate Sig (jacobian self (nth n xnew [])) a b.
Proof.
  intros HSig Hshape Hall.
  eexists. eexists. split; [apply PredictFacts.call_result; eassumption|].
  split; [reflexivity|]. split.
  - intros Sig' Hshape'. eexists.
    apply (PredictFacts.call_result (with_Sigma self Sig') xnew Sig').
    + reflexivity.
    + rewrite Hshape'. exact Hshape.
    + exact Hall.
  - intros n a b Hn Ha Hb Hab. cbn [slices].
    rewrite (nth_indep _ (zeros 0 0)
               (floored (num_outputs self) Sig (jacobian self [])))
      by (rewrite length_map; exact Hn).
    rewrite (map_nth (fun x => floored (num_outputs self) Sig (jacobian self x))).
    apply SymmetryFacts.get_floored_off_diagonal; assumption.
Qed.

Lemma prediction_mean_and_cross_terms_witness :
  let self := with_Sigma (__init__ Examples.linear_model [2])
                (mkMatrix 1 1 [[5]]) in
  exists M T, __call__ self [[3]] = Ok (M, T) /\ rows M = [[2 * 3]].
Proof.
  intros self.
  destruct (prediction_mean_and_cross_terms self [[3]] (mkMatrix 1 1 [[5]]))
    as [M [T [Hcall [Hrows _]]]].
  - reflexivity.
  - reflexivity.
  - repeat constructor. apply ExampleFacts.linear_contract_set.
  - exists M, T. split; [exact Hcall | exact Hrows].
Defined.

Module ZeroCovarianceFacts.
Import Numpy AnalyticMarginal MarginalSpec NumpyFacts.

Lemma propagate_zero (Sig J : matrix) (a b : nat) :
  (forall k l, (k < ncol J)%nat -> (l < ncol J)%nat -> get Sig k l = 0) ->
  propagate Sig J a b = 0.
Proof.
  intros Hz. unfold propagate. apply big_sum_zero. intros k Hk.
  rewrite big_sum_zero; [ring|].
  intros l Hl. rewrite Hz by assumption. ring.
Qed.

End ZeroCovarianceFacts.

(** X10.  With a covariance whose entries are all zero (no parameter
    uncertainty), every predicted variance is the floor 1e-15 and every
    predicted covariance between two outputs is zero. *)
Theorem zero_covariance_predicts_the_floor
  (self : Analytic) (xnew : list (list R)) (Sig : matrix) :
  Sigma self = Some Sig ->
  shape Sig = (length (param_mean self), length (param_mean self)) ->
  (forall k l, get Sig k l = 0) ->
  Forall (respects_contract self) xnew ->
  exists M T,
    __call__ self xnew = Ok (M, T) /\
    forall n a b,
      (n < length xnew)%nat ->
      (a < num_outputs self)%nat -> (b < num_outputs self)%nat ->
      get (nth n (slices T) (zeros 0 0)) a b
      = if (a =? b)%nat then 1e-15 else 0.
Proof.
  intros HSig Hshape Hzero Hall.
  eexists. eexists. split; [apply PredictFacts.call_result; eassumption|].
  intros n a b Hn Ha Hb. cbn [slices].
  rewrite (nth_indep _ (zeros 0 0)
             (floored (num_outputs self) Sig (jacobian self [])))
    by (rewrite length_map; exact Hn).
  rewrite (map_nth (fun x => floored (num_outputs self) Sig (jacobian self x))).
  unfold floored. rewrite get_tabulate by assumption.
  rewrite !ZeroCovarianceFacts.propagate_zero by (intros; apply Hzero).
  destruct (a =? b)%nat; [|reflexivity].
  unfold variance_floor. apply Rmax_left. lra.
Qed.

Lemma zero_covariance_predicts_the_floor_witness :
  let self := with_Sigma (__init__ Examples.linear_model [2]) (zeros 1 1) in
  exists M T,
    __call__ self [[3]] = Ok (M, T) /\
    get (nth 0 (slices T) (zeros 0 0)) 0 0 = 1e-15.
Proof.
  intros self.
  destruct (zero_covariance_predicts_the_floor self [[3]] (zeros 1 1))
    as [M [T [Hcall Hentries]]].
  - reflexivity.
  - reflexivity.
  - intros k l. apply get_zeros.
  - repeat constructor. apply ExampleFacts.linear_contract_set.
  - exists M, T. split; [exact Hcall|].
    apply (Hentries 0%nat 0%nat 0%nat); simpl; lia.
Defined.

(** X11.  For a model with one output, the three forms of the noise agree:
    the 1 x 1 covariance [[v]] with [v <> 0] gives, on every training set,
    the outcome and the object that the scalar [v] and the vector [[v]]
    give. *)
Theorem single_output_noise_forms_agree
  (self : Analytic) (X : list (list R)) (v : R) :
  num_outputs self = 1%nat -> v <> 0 ->
  compute_param_covar self X (NoiseMatrix (mkMatrix 1 1 [[v]]))
    = compute_param_covar self X (NoiseScalar v) /\
  compute_param_covar self X (NoiseMatrix (mkMatrix 1 1 [[v]]))
    = compute_param_covar self X (NoiseVector [v]).
Proof.
  intros HE Hv.
  assert (Hinfo : information_matrix self X (NoiseMatrix (mkMatrix 1 1 [[v]]))
                  = information_matrix self X (NoiseVector [v])).
  { unfold information_matrix. rewrite ExampleFacts.inv_1x1 by exact Hv.
    cbn [bind ndim_is_1]. rewrite HE.
    change (diag (map (fun s => 1 / s) [v])) with (mkMatrix 1 1 [[1 / v]]).
    destruct (d_mu_d_p self X) as [dmu|e]; [|reflexivity].
    cbn [bind]. unfold range. cbn [Nat.sub seq for_each].
    unfold output_terms.
    destruct (take_axis1 dmu 0) as [dmu1|e]; [|reflexivity]. cbn [bind].
    destruct (getitem _ 0 0) as [w|e]; [|reflexivity]. cbn [bind].
    destruct (matmul _ _) as [P|e]; [|reflexivity]. cbn [bind].
    destruct (iadd _ _) as [iA|e]; [|reflexivity]. cbn [bind].
    unfold range. cbn [Nat.add Nat.sub seq for_each]. reflexivity. }
  assert (Hvec : compute_param_covar self X (NoiseMatrix (mkMatrix 1 1 [[v]]))
                 = compute_param_covar self X (NoiseVector [v])).
  { unfold compute_param_covar. rewrite Hinfo. reflexivity. }
  split; [|exact Hvec].
  rewrite Hvec. unfold compute_param_covar, information_matrix.
  rewrite HE. reflexivity.
Qed.

Lemma single_output_noise_forms_agree_witness :
  let self := __init__ Examples.linear_model [2] in
  compute_param_covar self [[3]] (NoiseMatrix (mkMatrix 1 1 [[4]]))
  = compute_param_covar self [[3]] (NoiseScalar 4).
Proof.
  intros self.
  destruct (single_output_noise_forms_agree self [[3]] 4) as [Hscalar _].
  - reflexivity.
  - lra.
  - exact Hscalar.
Defined.

Import BFF1983Rivals.

Module DomainFacts.
Import Numpy BFF1983 BFF1983Rivals RivalFacts.

Lemma reference_point_within :
  within x_bounds [20; 225; 7] /\ within p_bounds DataGen_p.
Proof.
  unfold within, x_bounds, p_bounds, DataGen_p.
  split; repeat constructor; simpl; lra.
Qed.

End DomainFacts.

(** X12.  On the declared domain ([x] within [x_bounds], [p] within
    [p_bounds]) the model [M1] divides by nothing that vanishes: both calls
    return the same value, and the row returned with [grad=True] consists of
    the five partial derivatives of that value. *)
Theorem M1_faithful_on_domain (x p : list R) :
  within x_bounds x -> within p_bounds p -> faithful_at M1 x p.
Proof.
  intros Hx Hp.
  destruct (RivalFacts.within_x_bounds x Hx) as [x1 [x2 [x3 [-> [H1 [H2 H3]]]]]].
  destruct (RivalFacts.within_p_bounds p Hp)
    as [K1 [K2 [K3 [K4 [Keq [-> [HK1 [HK2 [HK3 [HK4 HKeq]]]]]]]]]].
  apply RivalFacts.M1_faithful; [|lra].
  apply Rgt_not_eq.
  assert (0 < K2 * x1) by (apply Rmult_lt_0_compat; lra).
  assert (0 < K3 * x2) by (apply Rmult_lt_0_compat; lra).
  assert (0 < K4 * x3) by (apply Rmult_lt_0_compat; lra).
  lra.
Qed.

Lemma M1_faithful_on_domain_witness :
  faithful_at M1 [20; 225; 7] BFF1983.DataGen_p.
Proof.
  apply M1_faithful_on_domain; apply DomainFacts.reference_point_within.
Defined.

(** X13.  The same for [M2]. *)
Theorem M2_faithful_on_domain (x p : list R) :
  within x_bounds x -> within p_bounds p -> faithful_at M2 x p.
Proof.
  intros Hx Hp.
  destruct (RivalFacts.within_x_bounds x Hx) as [x1 [x2 [x3 [-> [H1 [H2 H3]]]]]].
  destruct (RivalFacts.within_p_bounds p Hp)
    as [K1 [K2 [K3 [K4 [Keq [-> [HK1 [HK2 [HK3 [HK4 HKeq]]]]]]]]]].
  apply RivalFacts.M2_faithful; [|lra].
  apply Rgt_not_eq.
  assert (0 < K2 * x1) by (apply Rmult_lt_0_compat; lra).
  assert (0 < K3 * x2) by (apply Rmult_lt_0_compat; lra).
  assert (0 < K4 * x1 * x2)
    by (apply Rmult_lt_0_compat; [apply Rmult_lt_0_compat|]; lra).
  lra.
Qed.

Lemma M2_faithful_on_domain_witness :
  faithful_at M2 [20; 225; 7] BFF1983.DataGen_p.
Proof.
  apply M2_faithful_on_domain; apply DomainFacts.reference_point_within.
Defined.

(** X14.  The same for [M3]. *)
Theorem M3_faithful_on_domain (x p : list R) :
  within x_bounds x -> within p_bounds p -> faithful_at M3 x p.
Proof.
  intros Hx Hp.
  destruct (RivalFacts.within_x_bounds x Hx) as [x1 [x2 [x3 [-> [H1 [H2 H3]]]]]].
  destruct (RivalFacts.within_p_bounds p Hp)
    as [K1 [K2 [K3 [K4 [Keq [-> [HK1 [HK2 [HK3 [HK4 HKeq]]]]]]]]]].
  apply RivalFacts.M3_faithful; [|lra].
  apply Rgt_not_eq.
  assert (0 < K2 * x3) by (apply Rmult_lt_0_compat; lra).
  assert (0 < K3 * x2) by (apply Rmult_lt_0_compat; lra).
  assert (0 < x2 ^ 2) by (apply pow_lt; lra).
  assert (0 < x2 ^ 2 * (K1 + K2 * x3 + K3 * x2))
    by (apply Rmult_lt_0_compat; lra).
  assert (0 < K4 * x2 * x3)
    by (apply Rmult_lt_0_compat; [apply Rmult_lt_0_compat|]; lra).
  lra.
Qed.

Lemma M3_faithful_on_domain_witness :
  faithful_at M3 [20; 225; 7] BFF1983.DataGen_p.
Proof.
  apply M3_faithful_on_domain; apply DomainFacts.reference_point_within.
Defined.

(** X15.  The same for [M4]. *)
Theorem M4_faithful_on_domain (x p : list R) :
  within x_bounds x -> within p_bounds p -> faithful_at M4 x p.
Proof.
  intros Hx Hp.
  destruct (RivalFacts.within_x_bounds x Hx) as [x1 [x2 [x3 [-> [H1 [H2 H3]]]]]].
  destruct (RivalFacts.within_p_bounds p Hp)
    as [K1 [K2 [K3 [K4 [Keq [-> [HK1 [HK2 [HK3 [HK4 HKeq]]]]]]]]]].
  apply RivalFacts.M4_faithful; [lra| |lra].
  apply Rgt_not_eq.
  assert (0 < K2 * x1) by (apply Rmult_lt_0_compat; lra).
  assert (0 < x3 / x2) by (apply Rdiv_lt_0_compat; lra).
  assert (0 < K3 * (x3 / x2)) by (apply Rmult_lt_0_compat; lra).
  assert (0 < K4 * x3) by (apply Rmult_lt_0_compat; lra).
  lra.
Qed.

Lemma M4_faithful_on_domain_witness :
  faithful_at M4 [20; 225; 7] BFF1983.DataGen_p.
Proof.
  apply M4_faithful_on_domain; apply DomainFacts.reference_point_within.
Defined.

(** X16.  The same for [M5], the model that generates the data. *)
Theorem M5_faithful_on_domain (x p : list R) :
  within x_bounds x -> within p_bounds p -> faithful_at BFF1983.M5 x p.
Proof.
  intros Hx Hp.
  destruct (RivalFacts.within_x_bounds x Hx) as [x1 [x2 [x3 [-> [H1 [H2 H3]]]]]].
  destruct (RivalFacts.within_p_bounds p Hp)
    as [K1 [K2 [K3 [K4 [Keq [-> [HK1 [HK2 [HK3 [HK4 HKeq]]]]]]]]]].
  apply RivalFacts.M5_faithful; [|lra].
  apply Rgt_not_eq.
  assert (0 < K2 * x2) by (apply Rmult_lt_0_compat; lra).
  assert (0 < K3 * x1 * x2)
    by (apply Rmult_lt_0_compat; [apply Rmult_lt_0_compat|]; lra).
  assert (0 < K4 * x3) by (apply Rmult_lt_0_compat; lra).
  lra.
Qed.

Lemma M5_faithful_on_domain_witness :
  faithful_at BFF1983.M5 [20; 225; 7] BFF1983.DataGen_p.
Proof.
  apply M5_faithful_on_domain; apply DomainFacts.reference_point_within.
Defined.

(** X17.  Each of the five models returned by [get] accepts exactly the
    design points with three components and the parameter vectors with five:
    then it returns one value (and, with [grad=True], a 1 x 5 row), otherwise
    it raises [ValueError]. *)
Theorem models_check_lengths (f : candidate) (x p : list R) (grad : bool) :
  In f get_models ->
  (length x = 3%nat -> length p = 5%nat ->
   exists y oJ,
     f x p grad = Ok ([y], oJ) /\
     (grad = false -> oJ = None) /\
     (grad = true -> exists row,
        oJ = Some (mkMatrix 1 5 [row]) /\ length row = 5%nat)) /\
  (length x <> 3%nat \/ length p <> 5%nat -> f x p grad = Raise ValueError).
Proof.
  intros Hin. split.
  - intros Hx Hp.
    destruct x as [|x1 [|x2 [|x3 [|x4 x]]]]; try discriminate Hx.
    destruct p as [|K1 [|K2 [|K3 [|K4 [|Keq [|K6 p]]]]]]; try discriminate Hp.
    simpl in Hin.
    destruct Hin as [<-|[<-|[<-|[<-|[<-|[]]]]]];
      destruct grad; eexists; eexists;
      (split; [reflexivity|]); split; intros Hg; try discriminate Hg;
      try reflexivity; eexists; split; reflexivity.
  - intros Hbad. simpl in Hin.
    destruct x as [|x1 [|x2 [|x3 [|x4 x]]]];
      destruct Hin as [<-|[<-|[<-|[<-|[<-|[]]]]]]; try reflexivity;
      destruct p as [|K1 [|K2 [|K3 [|K4 [|Keq [|K6 p]]]]]]; try reflexivity;
      destruct Hbad as [Hbad|Hbad]; exfalso; apply Hbad; reflexivity.
Qed.

Lemma models_check_lengths_witness :
  M3 [20; 225] BFF1983.DataGen_p true = Raise ValueError /\
  M3 [20; 225; 7] [1; 2] false = Raise ValueError.
Proof.
  assert (Hin : In M3 get_models) by (simpl; tauto).
  split.
  - apply (models_check_lengths M3 [20; 225] BFF1983.DataGen_p true Hin).
    left. simpl. lia.
  - apply (models_check_lengths M3 [20; 225; 7] [1; 2] false Hin).
    right. simpl. lia.
Defined.

Module RivalMarginalFacts.
Import Numpy AnalyticMarginal MarginalSpec BFF1983 BFF1983Rivals.



End RivalMarginalFacts.



Import VanillaGP.

(** X19.  [set_kernels] stores one kernel after the other: [None] leaves a
    kernel as it is, a class that is not a [Kern] raises [AssertionError],
    and when [kern_x] is accepted and [kern_p] is refused, the new [kern_x]
    stays stored although the call has failed. *)
Theorem set_kernels_stepwise
  (self : VanillaGPModel) (kx kp : pyclass) :
  set_kernels self None None = (Ok tt, self) /\
  (issubclass_Kern kx = true ->
   set_kernels self (Some kx) None
     = (Ok tt, mkVanillaGPModel (Some kx) (_kern_p self)) /\
   kern_x (snd (set_kernels self (Some kx) None)) = Ok (Some kx)) /\
  (issubclass_Kern kx = false ->
   forall value, set_kernels self (Some kx) value = (Raise AssertionError, self)) /\
  (issubclass_Kern kx = true -> issubclass_Kern kp = false ->
   set_kernels self (Some kx) (Some kp)
     = (Raise AssertionError, mkVanillaGPModel (Some kx) (_kern_p self))).
Proof.
  split; [reflexivity|]. split; [|split].
  - intros Hx. unfold set_kernels, kern_x_setter. rewrite Hx.
    split; reflexivity.
  - intros Hx value. unfold set_kernels, kern_x_setter. rewrite Hx.
    reflexivity.
  - intros Hx Hp. unfold set_kernels, kern_x_setter. rewrite Hx.
    unfold kern_p_setter. rewrite Hp. reflexivity.
Qed.

Import SurrogateAttributes.

(** X20.  The property [gps]: a list of the wrong length is refused with
    [AssertionError] and nothing changes; an accepted list is what the getter
    returns; after [del] the getter returns [None] while the attribute still
    exists, so that deleting twice is harmless; the noise variance is never
    touched. *)
Theorem gps_property {GP : Type} (self : Surrogate GP)
  (value : list (list (option GP))) :
  (length value <> sur_num_outputs self ->
   gps_setter self value = (Raise AssertionError, self)) /\
  (length value = sur_num_outputs self ->
   fst (gps_setter self value) = Ok tt /\
   gps (snd (gps_setter self value)) = Some value /\
   gps (gps_deleter (snd (gps_setter self value))) = None) /\
  gps (gps_deleter self) = None /\
  _gps (gps_deleter self) = Some None /\
  gps_deleter (gps_deleter self) = gps_deleter self /\
  _gp_noise_var (snd (gps_setter self value)) = _gp_noise_var self /\
  _gp_noise_var (gps_deleter self) = _gp_noise_var self.
Proof.
  split; [|split].
  - intros Hlen. unfold gps_setter.
    destruct (Nat.eqb_spec (length value) (sur_num_outputs self));
      [contradiction | reflexivity].
  - intros Hlen. unfold gps_setter. rewrite Hlen, Nat.eqb_refl.
    repeat split.
  - repeat split. unfold gps_setter.
    destruct (length value =? sur_num_outputs self)%nat; reflexivity.
Qed.

(** X21.  The noise variance of the regression is a positive number: the
    setter stores a Python number greater than zero and refuses everything
    else with [AssertionError], leaving the old value; [__init__] stores the
    entry of [model_dict], or 1e-6 when the key is missing; so whatever is
    read back after an accepted assignment is positive. *)
Theorem gp_noise_var_is_positive {GP : Type} (self : Surrogate GP)
  (value : pyobj) :
  (forall v, value = PyFloat v -> 0 < v ->
     gp_noise_var_setter self value
       = (Ok tt, mkSurrogate (sur_num_outputs self) (_gps self) (Some v)) /\
     gp_noise_var (snd (gp_noise_var_setter self value)) = Ok v) /\
  ((forall v, value = PyFloat v -> v <= 0) ->
   gp_noise_var_setter self value = (Raise AssertionError, self)) /\
  (fst (gp_noise_var_setter self value) = Ok tt ->
   exists v, gp_noise_var (snd (gp_noise_var_setter self value)) = Ok v /\
             0 < v) /\
  fst (init_gp_noise_var self None) = Ok tt /\
  gp_noise_var (snd (init_gp_noise_var self None)) = Ok 1e-6.
Proof.
  split; [|split; [|split]].
  - intros v -> Hv. unfold gp_noise_var_setter.
    destruct (Rlt_dec 0 v); [split; reflexivity | contradiction].
  - intros Hbad. unfold gp_noise_var_setter.
    destruct value as [|v|l|a|A|T|c]; try reflexivity.
    destruct (Rlt_dec 0 v) as [Hv|_]; [|reflexivity].
    specialize (Hbad v eq_refl). lra.
  - unfold gp_noise_var_setter.
    destruct value as [|v|l|a|A|T|c]; try discriminate.
    destruct (Rlt_dec 0 v) as [Hv|_]; [|discriminate].
    intros _. exists v. split; [reflexivity | exact Hv].
  - unfold init_gp_noise_var, gp_noise_var_setter.
    destruct (Rlt_dec 0 1e-6) as [_|Hn]; [split; reflexivity | exfalso; lra].
Qed.

Lemma set_kernels_stepwise_witness :
  let self := mkVanillaGPModel None None in
  set_kernels self (Some Examples.RBF) (Some MoreExamples.PlainClass)
  = (Raise AssertionError, mkVanillaGPModel (Some Examples.RBF) None) /\
  set_kernels self (Some MoreExamples.PlainClass) (Some Examples.RBF)
  = (Raise AssertionError, self).
Proof.
  intros self.
  destruct (set_kernels_stepwise self Examples.RBF MoreExamples.PlainClass)
    as [_ [_ [_ Hhalf]]].
  destruct (set_kernels_stepwise self MoreExamples.PlainClass Examples.RBF)
    as [_ [_ [Hnone _]]].
  split.
  - apply Hhalf; reflexivity.
  - apply Hnone. reflexivity.
Defined.

Lemma gps_property_witness :
  let self : Surrogate nat := mkSurrogate 2 None (Some 1e-6) in
  gps_setter self [[Some 7%nat]] = (Raise AssertionError, self) /\
  gps (snd (gps_setter self [[Some 7%nat]; [None]]))
  = Some [[Some 7%nat]; [None]].
Proof.
  intros self.
  destruct (gps_property self [[Some 7%nat]]) as [Hbad _].
  destruct (gps_property self [[Some 7%nat]; [None]]) as [_ [Hgood _]].
  split.
  - apply Hbad. simpl. lia.
  - apply Hgood. reflexivity.
Defined.

Lemma gp_noise_var_is_positive_witness :
  let self : Surrogate nat := mkSurrogate 2 None (Some 1e-6) in
  gp_noise_var (snd (gp_noise_var_setter self (PyFloat 2))) = Ok 2 /\
  gp_noise_var_setter self (PyFloat 0) = (Raise AssertionError, self) /\
  gp_noise_var_setter self PyNone = (Raise AssertionError, self).
Proof.
  intros self.
  destruct (gp_noise_var_is_positive self (PyFloat 2)) as [Hgood _].
  destruct (gp_noise_var_is_positive self (PyFloat 0)) as [_ [Hzero _]].
  destruct (gp_noise_var_is_positive self PyNone) as [_ [Hnone _]].
  split; [|split].
  - apply (Hgood 2); [reflexivity | lra].
  - apply Hzero. intros v Hv. inversion Hv. lra.
  - apply Hnone. intros v Hv. discriminate Hv.
Defined.

Module SymmetricInformationFacts.
Import Numpy AnalyticMarginal MarginalSpec NumpyFacts.





End SymmetricInformationFacts.



(** X23.  Empty inputs.  On an empty training set [compute_param_covar]
    never stores anything: it raises [AssertionError] for a scalar or a vector
    of variances, and [AssertionError] or, when the noise covariance has no
    inverse, [LinAlgError] for a full noise covariance.  On an empty list of
    query points [__call__] returns the empty arrays of shapes (0, E) and
    (0, E, E), whatever covariance is stored. *)
Theorem empty_inputs (self : Analytic) :
  (forall v, compute_param_covar self [] (NoiseScalar v)
             = (Raise AssertionError, self)) /\
  (forall var, compute_param_covar self [] (NoiseVector var)
               = (Raise AssertionError, self)) /\
  (forall m,
     compute_param_covar self [] (NoiseMatrix m)
     = (Raise (match inv m with
               | Ok _ => AssertionError
               | Raise _ => LinAlgError
               end), self)) /\
  __call__ self [] =
    Ok (mkMatrix 0 (num_outputs self) [],
        mkTensor 0 (num_outputs self) (num_outputs self) []).
Proof.
  split; [reflexivity|]. split; [reflexivity|]. split.
  - intros m. unfold compute_param_covar, information_matrix.
    destruct (inv m) as [w|e] eqn:Hm; [reflexivity|].
    apply CovarianceFacts.inv_raises in Hm. subst e. reflexivity.
  - unfold __call__. cbn [comprehension bind map length].
    f_equal. f_equal. f_equal. unfold range.
    generalize (seq 0 (num_outputs self - 0)).
    intros l. induction l as [|e l IH]; [reflexivity | exact IH].
Qed.

Module ScalingFacts.
Import Numpy AnalyticMarginal MarginalSpec NumpyFacts.

Lemma skip_bound (k a m : nat) : (a < m)%nat -> (skip k a < S m)%nat.
Proof. intros Ha. unfold skip. destruct (a <? k)%nat; lia. Qed.

(** The determinant reads the leading block only. *)
Lemma det_ext (n : nat) :
  forall f g : nat -> nat -> R,
  (forall i j, (i < n)%nat -> (j < n)%nat -> f i j = g i j) ->
  det n f = det n g.
Proof.
  induction n as [|n IH]; intros f g Hfg.
  - reflexivity.
  - cbn [det]. apply big_sum_ext. intros j Hj.
    rewrite (Hfg O j) by lia. f_equal.
    apply IH. intros a b Ha Hb. unfold minor.
    apply Hfg; apply skip_bound; assumption.
Qed.

Lemma det_scal (c : R) (n : nat) :
  forall f : nat -> nat -> R,
  det n (fun i j => c * f i j) = c ^ n * det n f.
Proof.
  induction n as [|n IH]; intros f.
  - simpl. ring.
  - cbn [det]. rewrite <- big_sum_scal. apply big_sum_ext. intros j _.
    change (minor (fun i0 j0 => c * f i0 j0) 0 j)
      with (fun a b => c * minor f 0 j a b).
    rewrite IH. simpl. ring.
Qed.

Lemma det_tabulate (n : nat) (f : nat -> nat -> R) :
  det n (get (tabulate n n f)) = det n f.
Proof.
  apply det_ext. intros i j Hi Hj. apply get_tabulate; assumption.
Qed.

Lemma cofactor_tabulate (n : nat) (f : nat -> nat -> R) (i j : nat) :
  (i < S n)%nat -> (j < S n)%nat ->
  det n (minor (get (tabulate (S n) (S n) f)) j i) = det n (minor f j i).
Proof.
  intros Hi Hj. apply det_ext. intros a b Ha Hb. unfold minor.
  apply get_tabulate; apply skip_bound; assumption.
Qed.

(** Multiplying a matrix by [c <> 0] divides its inverse by [c]. *)
Lemma inv_scaled (n : nat) (f : nat -> nat -> R) (c : R) (B : matrix) :
  c <> 0 ->
  inv (tabulate n n f) = Ok B ->
  inv (tabulate n n (fun i j => c * f i j))
  = Ok (tabulate n n (fun i j => 1 / c * get B i j)).
Proof.
  intros Hc. unfold inv. cbn [nrow ncol tabulate]. rewrite Nat.eqb_refl.
  fold (tabulate n n f). fold (tabulate n n (fun i j => c * f i j)).
  rewrite !det_tabulate. rewrite det_scal.
  destruct (Req_dec_T (det n f) 0) as [|Hd]; [discriminate|].
  intros HB. inversion HB as [HB']; clear HB.
  destruct (Req_dec_T (c ^ n * det n f) 0) as [H0|_].
  { exfalso. apply Rmult_integral in H0. destruct H0 as [H0|H0].
    - apply (pow_nonzero c n Hc). exact H0.
    - contradiction. }
  f_equal. apply tabulate_ext. intros i j Hi Hj.
  rewrite get_tabulate by assumption.
  destruct n as [|n]; [lia|].
  replace (S n - 1)%nat with n by lia.
  rewrite !cofactor_tabulate by assumption.
  change (minor (fun i0 j0 => c * f i0 j0) j i)
    with (fun a b => c * minor f j i a b).
  rewrite det_scal. simpl. field.
  repeat split; try assumption. apply pow_nonzero. exact Hc.
Qed.

Lemma I_inv_vector_scaled (self : Analytic) (X : list (list R))
  (var : list R) (c : R) :
  length var = num_outputs self ->
  I_inv_vector self X (map (fun v => c * v) var) =
  tabulate (length (param_mean self)) (length (param_mean self))
    (fun i j => 1 / c * get (I_inv_vector self X var) i j).
Proof.
  intros Hlen. unfold I_inv_vector. apply tabulate_ext. intros i j Hi Hj.
  rewrite get_tabulate by assumption.
  rewrite <- big_sum_scal. apply big_sum_ext. intros e He.
  rewrite (nth_indep _ 0 (c * 0)) by (rewrite length_map; lia).
  rewrite (map_nth (fun v => c * v)).
  unfold Rdiv. rewrite Rinv_mult. ring.
Qed.

End ScalingFacts.

(** X24.  The estimated covariance is proportional to the noise: on a
    non-empty training set where the model respects its contract, when
    [compute_param_covar] stores [Sigma] for the vector of variances [var],
    it stores [c * Sigma] for the vector [c * var], for every [c <> 0]. *)
Theorem covariance_scales_with_noise
  (self : Analytic) (X : list (list R)) (var : list R) (c : R) (Sig : matrix) :
  X <> [] -> Forall (respects_contract self) X ->
  length var = num_outputs self -> c <> 0 ->
  compute_param_covar self X (NoiseVector var)
    = (Ok tt, with_Sigma self Sig) ->
  compute_param_covar self X (NoiseVector (map (fun v => c * v) var))
    = (Ok tt, with_Sigma self (scale c Sig)).
Proof.
  intros Hne Hall Hlen Hc Hcall.
  rewrite (CovarianceFacts.compute_param_covar_spec self X (NoiseVector var)
             (I_inv_vector self X var) Hne Hall Hlen eq_refl) in Hcall.
  destruct (inv (I_inv_vector self X var)) as [B|e] eqn:HB;
    [|discriminate Hcall].
  assert (B = Sig) by (inversion Hcall; reflexivity). subst B.
  assert (Hlen' : length (map (fun v => c * v) var) = num_outputs self)
    by (rewrite length_map; exact Hlen).
  rewrite (CovarianceFacts.compute_param_covar_spec self X
             (NoiseVector (map (fun v => c * v) var))
             (I_inv_vector self X (map (fun v => c * v) var))
             Hne Hall Hlen' eq_refl).
  rewrite ScalingFacts.I_inv_vector_scaled by exact Hlen.
  assert (Hc' : 1 / c <> 0).
  { unfold Rdiv. rewrite Rmult_1_l. apply Rinv_neq_0_compat. exact Hc. }
  pose proof (NumpyFacts.inv_shape _ _ HB) as [_ Hshape].
  unfold I_inv_vector in HB at 1.
  cbv zeta in HB.
  rewrite (ScalingFacts.inv_scaled (length (param_mean self))
             (fun i j => get (I_inv_vector self X var) i j) (1 / c) Sig Hc').
  - f_equal. f_equal. unfold scale.
    unfold shape in Hshape. cbn [nrow ncol I_inv_vector tabulate] in Hshape.
    injection Hshape as Hr Hcol. rewrite Hr, Hcol.
    apply tabulate_ext. intros i j _ _. field. exact Hc.
  - rewrite <- HB. f_equal. apply tabulate_ext. intros i j Hi Hj.
    unfold I_inv_vector. rewrite get_tabulate by assumption. reflexivity.
Qed.

Lemma covariance_scales_with_noise_witness :
  let self := __init__ Examples.linear_model [2] in
  compute_param_covar self [[3]] (NoiseVector [10 * 4])
  = (Ok tt, with_Sigma self
              (scale 10 (mkMatrix 1 1 [[1 / information_1 self [[3]] [4]]]))).
Proof.
  intros self.
  apply (covariance_scales_with_noise self [[3]] [4] 10).
  - discriminate.
  - repeat constructor; apply ExampleFacts.linear_contract.
  - reflexivity.
  - lra.
  - apply OneParameterFacts.one_parameter_estimate.
    + reflexivity.
    + discriminate.
    + repeat constructor; apply ExampleFacts.linear_contract.
    + reflexivity.
    + unfold information_1, MarginalSpec.jacobian, get. cbn. lra.
Defined.
